(** * tf_helper_functions: a shallow embedding of [main.py]

    The module is a set of helper functions for image-classification
    experiments.  Every function is a short sequence of calls into
    TensorFlow, NumPy, scikit-learn, mlxtend, matplotlib, [zipfile] and
    [os], glued together with a few Python built-in operations.

    The embedding is a state-and-fault monad over a [world]: the file
    system, the open zip handles and a log of every call the Python code
    makes.  The functions of [main.py] are translated statement by
    statement; the libraries they call are not part of the repository and
    are modelled from their documented behaviour.  Floating-point numbers
    are idealised as rationals ([Q]). *)

From Stdlib Require Import ZArith QArith Qround Lqa Lia.
From stdpp Require Import base list gmap strings sorting pretty.

Set Warnings "-register-all".

(** ** Faults *)

(** The exception classes the modelled calls raise. *)
Inductive exn :=
| NotFoundError
| InvalidArgumentError
| ValueError
| AssertionError
| TypeError
| IndexError
| KeyError (key : string)
| FileNotFoundError
| IsADirectoryError
| NotADirectoryError
| BadZipFile
| OtherError (msg : string).

Inductive outcome (A : Type) :=
| Ok (a : A)
| Fault (e : exn).
Arguments Ok {A} a.
Arguments Fault {A} e.

(** ** Arrays *)

(** An image tensor: rows of pixels of channel values, [img[y][x][ch]]. *)
Definition tensor3 : Type := list (list (list Q)).

(** A NumPy array of any rank, as nested sequences ending in scalars. *)
Inductive ndarray :=
| Scalar (x : Q)
| Arr (items : list ndarray).

(** A trained model object: all the code uses is its [predict] method,
    applied to a batch of images. *)
Record model := { predict : list tensor3 -> outcome ndarray }.

(** ** Observable output *)

(** What the plotting backend and the console receive. *)
Inductive output :=
| ConfusionPlot (conf_mat : list (list nat)) (figsize : Z * Z)
    (show_absolute show_normed colorbar : bool)
    (class_names : option (list string))
| Xlabel (s : string) (fontsize : option Z)
| Ylabel (s : string) (fontsize : option Z)
| Title (s : string) (fontsize : option Z)
| Show
| Savefig (fname : string)
| Imshow (img : tensor3)
| Axis (on : bool)
| Plot (xs : option (list Z)) (ys : list Q) (label : string)
| Legend (loc : option string)
| Figure (figsize : option (Z * Z))
| Subplot (nrows ncols index : Z)
| Print (line : string)
| Warn (message : string).

(** ** Files *)

(** A file is known by what its bytes decode to.  A JPEG is the raster
    of 8-bit samples its decoder yields; a zip archive is its list of
    members, a member whose data fails its checksum being [None]; a PNG
    written by [savefig] is the figure it renders. *)
Inductive file :=
| Jpeg (raster : list (list (list Z)))
| Zip (members : list (string * option file))
| Png (figure : list output)
| Blob (data : string).

(** ** The call log *)

(** The functions of [main.py]. *)
Inductive func :=
| F_load_and_prep_image
| F_make_confusion_matrix
| F_pred_and_plot
| F_create_tensorboard_callback
| F_plot_loss_curves
| F_compare_history
| F_unzip_data
| F_walk_through_dir
| F_calculate_results.

(** An operation is a call into a library, a Python built-in operation
    evaluated by the code of [main.py] itself (subscript, [len], [+],
    [int], [print]), or a call that produces output. *)
Inductive op :=
| Lib (name : string)
| Builtin (name : string)
| Out (o : output).

Inductive status :=
| Returned
| Raised (e : exn).

(** A log entry: an operation together with how it ended, or the entry
    into a function of [main.py] called from [main.py]. *)
Inductive entry :=
| Call (o : op) (s : status)
| Enter (f : func).

(** ** The world *)

Record machine := {
  fs : gmap string file;
  open_handles : list nat;
  next_handle : nat;
  (** what [datetime.datetime.now().strftime("%Y%m%d-%H%M%S")] yields *)
  clock : string;
  (** what [os.walk] does for a path: the (dirpath, dirnames, filenames)
      it yields, or the fault it raises (a malformed path) *)
  tree : string -> outcome (list (string * list string * list string));
  (** the y-limits the plotting backend reports for what was drawn *)
  autoscale : list output -> Q * Q;
  (** what opening a path that names no file of [fs] raises: a missing
      file, a directory and a malformed path raise different faults *)
  open_error : string -> exn;
  (** what the image decoder makes of contents that are not a JPEG: it
      decodes other image formats too and rejects the rest *)
  decode_other : file -> outcome tensor3;
  (** what the image resize makes of a size that is -1 or does not fit
      32 bits *)
  resize_other : tensor3 -> Z * Z -> outcome tensor3;
  (** what [extractall] does with the members of an archive on a file
      system: its outcome and the files it leaves *)
  extraction : list (string * option file) -> gmap string file ->
               outcome unit * gmap string file
}.

Definition with_files (files : gmap string file) (m : machine) : machine :=
  {| fs := files;
     open_handles := open_handles m;
     next_handle := next_handle m;
     clock := clock m;
     tree := tree m;
     autoscale := autoscale m;
     open_error := open_error m;
     decode_other := decode_other m;
     resize_other := resize_other m;
     extraction := extraction m |}.

Definition with_handles (handles : list nat) (next : nat) (m : machine)
    : machine :=
  {| fs := fs m;
     open_handles := handles;
     next_handle := next;
     clock := clock m;
     tree := tree m;
     autoscale := autoscale m;
     open_error := open_error m;
     decode_other := decode_other m;
     resize_other := resize_other m;
     extraction := extraction m |}.

Record world := {
  mach : machine;
  log : list entry
}.

(** ** The monad *)

Definition M (A : Type) : Type := world -> outcome A * world.

Definition ret {A} (a : A) : M A := fun w => (Ok a, w).

Definition bind {A B} (m : M A) (k : A -> M B) : M B :=
  fun w =>
    match m w with
    | (Ok a, w') => k a w'
    | (Fault e, w') => (Fault e, w')
    end.

Declare Scope py_scope.
Delimit Scope py_scope with py.
Notation "x <- m ;; k" := (bind m (fun x => k))
  (at level 100, m at next level, right associativity) : py_scope.
Notation "m ;; k" := (bind m (fun _ => k))
  (at level 100, right associativity) : py_scope.
Open Scope py_scope.

Definition status_of {A} (r : outcome A) : status :=
  match r with
  | Ok _ => Returned
  | Fault e => Raised e
  end.

Definition record (en : entry) (w : world) : world :=
  {| mach := mach w; log := log w ++ [en] |}.

(** A primitive operation: it reads the world, yields an outcome and a
    new machine state, and is logged with its status. *)
Definition prim {A} (o : op) (f : world -> outcome A * machine) : M A :=
  fun w =>
    let '(r, m') := f w in
    (r, {| mach := m'; log := log w ++ [Call o (status_of r)] |}).

(** A primitive that leaves the machine alone. *)
Definition call {A} (o : op) (r : outcome A) : M A :=
  prim o (fun w => (r, mach w)).

Definition emit (x : output) : M unit := call (Out x) (Ok tt).

(** A call from [main.py] to one of its own functions. *)
Definition enter {A} (f : func) (body : M A) : M A :=
  fun w => body (record (Enter f) w).

(** The output produced so far: the payloads of the output operations
    that returned. *)
Definition outputs (l : list entry) : list output :=
  omap (fun en => match en with
                  | Call (Out o) Returned => Some o
                  | _ => None
                  end) l.

(** The entries a run adds to the log. *)
Definition added (l0 l1 : list entry) : list entry := drop (length l0) l1.

(** ** TensorFlow image operations (library model) *)

Definition tf_io_read_file (filename : string) : M file :=
  prim (Lib "tf.io.read_file")
    (fun w => match fs (mach w) !! filename with
              | Some f => (Ok f, mach w)
              | None => (Fault NotFoundError, mach w)
              end).

(** A decodable raster: at least one row and one column, one (grayscale)
    or three (colour) samples per pixel, rectangular, samples in 0..255. *)
Definition valid_raster (r : list (list (list Z))) : bool :=
  let w := length (hd [] r) in
  let c := length (hd [] (hd [] r)) in
  (0 <? length r)%nat && (0 <? w)%nat && ((c =? 1)%nat || (c =? 3)%nat) &&
  forallb (fun row =>
    (length row =? w)%nat &&
    forallb (fun px =>
      (length px =? c)%nat &&
      forallb (fun v => (0 <=? v)%Z && (v <=? 255)%Z) px) row) r.

(** [tf.image.decode_jpeg(contents)] with the default [channels=0]: the
    output has as many channels as the JPEG has.  The operation accepts
    other image formats as well; what it makes of them is the machine's
    [decode_other]. *)
Definition decode_jpeg_result (m : machine) (contents : file)
    : outcome tensor3 :=
  match contents with
  | Jpeg r =>
      if valid_raster r then Ok (map (map (map inject_Z)) r)
      else Fault InvalidArgumentError
  | other => decode_other m other
  end.

Definition tf_image_decode_jpeg (contents : file) : M tensor3 :=
  prim (Lib "tf.image.decode_jpeg")
    (fun w => (decode_jpeg_result (mach w) contents, mach w)).

(** Bilinear interpolation with half-pixel centres. *)
Definition source_coord (scale : Q) (i : nat) : Q :=
  ((inject_Z (Z.of_nat i) + (1 # 2)) * scale - (1 # 2))%Q.

Definition lower_index (x : Q) : nat := Z.to_nat (Z.max (Qfloor x) 0).

Definition upper_index (in_size : nat) (x : Q) : nat :=
  Z.to_nat (Z.min (Qceiling x) (Z.of_nat in_size - 1)).

Definition lerp_weight (x : Q) : Q := (x - inject_Z (Qfloor x))%Q.

Definition lerp (a b t : Q) : Q := (a + (b - a) * t)%Q.

Definition sample (img : tensor3) (y x ch : nat) : Q :=
  nth ch (nth x (nth y img []) []) 0%Q.

Definition resize_bilinear (img : tensor3) (out_h out_w : nat) : tensor3 :=
  let in_h := length img in
  let in_w := length (hd [] img) in
  let c := length (hd [] (hd [] img)) in
  let sy := (inject_Z (Z.of_nat in_h) / inject_Z (Z.of_nat out_h))%Q in
  let sx := (inject_Z (Z.of_nat in_w) / inject_Z (Z.of_nat out_w))%Q in
  map (fun oy =>
    let y := source_coord sy oy in
    let y0 := lower_index y in
    let y1 := upper_index in_h y in
    map (fun ox =>
      let x := source_coord sx ox in
      let x0 := lower_index x in
      let x1 := upper_index in_w x in
      map (fun ch =>
        lerp (lerp (sample img y0 x0 ch) (sample img y0 x1 ch) (lerp_weight x))
             (lerp (sample img y1 x0 ch) (sample img y1 x1 ch) (lerp_weight x))
             (lerp_weight y))
        (seq 0 c))
      (seq 0 out_w))
    (seq 0 out_h).

(** A size that [tf.image.resize] takes: a 32-bit integer that is not
    negative. *)
Definition int32_size (s : Z) : bool := (0 <=? s)%Z && (s <? 2 ^ 31)%Z.

(** A size that [tf.image.resize] refuses as a negative dimension: a
    negative 32-bit integer other than -1, or an integer from 2^31 to
    2^32 - 2, which as a 32-bit integer is such a negative one. *)
Definition refused_size (s : Z) : bool :=
  ((- 2 ^ 31 <=? s)%Z && (s <? - 1)%Z) ||
  ((2 ^ 31 <=? s)%Z && (s <? 2 ^ 32 - 1)%Z).

(** [tf.image.resize(img, [h, w])] with the default bilinear method.  A
    negative dimension is refused with [ValueError], a size of zero or
    an empty image with [InvalidArgumentError].  The size -1 (the mark
    of an unknown dimension) and the sizes that do not fit 32 bits are
    left to the machine's [resize_other]. *)
Definition resize_result (m : machine) (img : tensor3) (size : Z * Z)
    : outcome tensor3 :=
  if refused_size (fst size) || refused_size (snd size) then Fault ValueError
  else if int32_size (fst size) && int32_size (snd size) then
    if (0 <? fst size)%Z && (0 <? snd size)%Z &&
       (0 <? length img)%nat && (0 <? length (hd [] img))%nat
    then Ok (resize_bilinear img (Z.to_nat (fst size)) (Z.to_nat (snd size)))
    else Fault InvalidArgumentError
  else resize_other m img size.

Definition tf_image_resize (img : tensor3) (size : Z * Z) : M tensor3 :=
  prim (Lib "tf.image.resize")
    (fun w => (resize_result (mach w) img size, mach w)).

(** [img / 255.] *)
Definition tensor_div (img : tensor3) (d : Q) : tensor3 :=
  map (map (map (fun v => (v / d)%Q))) img.

(** ** [load_and_prep_image] *)

Definition default_img_shape : Z := 224.
Definition default_normalize : bool := true.

Definition load_and_prep_image (filename : string) (img_shape : Z)
    (normalize : bool) : M tensor3 :=
  img <- tf_io_read_file filename ;;
  img <- tf_image_decode_jpeg img ;;
  img <- tf_image_resize img (img_shape, img_shape) ;;
  if normalize then ret (tensor_div img 255%Q) else ret img.

(** The shape of a tensor: [has_shape t h w c] when [t] has [h] rows of
    [w] pixels of [c] channels. *)
Definition has_shape (t : tensor3) (h w c : nat) : Prop :=
  length t = h /\
  Forall (fun row => length row = w /\ Forall (fun px => length px = c) row) t.

Definition values_within (lo hi : Q) (t : tensor3) : Prop :=
  Forall (Forall (Forall (fun v => (lo <= v)%Q /\ (v <= hi)%Q))) t.

(** ** Python built-in operations *)

(** Subscripts: an integer, or any other object (the code of
    [pred_and_plot] uses a bound method as one). *)
Inductive pyindex :=
| IntIndex (i : Z)
| MethodIndex (name : string).

(** [l[i]] on a list: negative indices count from the end. *)
Definition list_item {A} (l : list A) (i : Z) : outcome A :=
  let n := Z.of_nat (length l) in
  let j := if (i <? 0)%Z then (i + n)%Z else i in
  if (0 <=? j)%Z && (j <? n)%Z then
    match l !! Z.to_nat j with
    | Some x => Ok x
    | None => Fault IndexError
    end
  else Fault IndexError.

Definition py_getitem (l : list string) (i : pyindex) : M string :=
  call (Builtin "list.__getitem__")
    (match i with
     | IntIndex i => list_item l i
     | MethodIndex _ => Fault TypeError
     end).

(** [d[key]] on a dict. *)
Definition dict_getitem {V} (d : gmap string V) (key : string) : M V :=
  call (Builtin "dict.__getitem__")
    (match d !! key with
     | Some v => Ok v
     | None => Fault (KeyError key)
     end).

(** [len(a)]: a NumPy scalar has no length. *)
Definition py_len (a : ndarray) : M nat :=
  call (Builtin "len")
    (match a with
     | Scalar _ => Fault TypeError
     | Arr items => Ok (length items)
     end).

Definition truncate (x : Q) : Z :=
  if Qle_bool 0%Q x then Qfloor x else Qceiling x.

Fixpoint flatten (a : ndarray) : list Q :=
  match a with
  | Scalar x => [x]
  | Arr items =>
      (fix go (l : list ndarray) : list Q :=
         match l with
         | [] => []
         | b :: l' => flatten b ++ go l'
         end) items
  end.

(** [int(t)]: only a scalar (an array of no dimension) converts. *)
Definition py_int (a : ndarray) : M Z :=
  call (Builtin "int")
    (match a with
     | Scalar x => Ok (truncate x)
     | Arr _ => Fault TypeError
     end).

Definition print (line : string) : M unit := emit (Print line).

(** [range(n)] *)
Definition range (n : nat) : list Z := map Z.of_nat (seq 0 n).

Fixpoint for_each {A} (l : list A) (body : A -> M unit) : M unit :=
  match l with
  | [] => ret tt
  | x :: l' => body x ;; for_each l' body
  end.

(** ** NumPy and TensorFlow array operations (library model) *)

(** [a[i]] on an array. *)
Definition np_getitem (a : ndarray) (i : Z) : M ndarray :=
  call (Lib "numpy.ndarray.__getitem__")
    (match a with
     | Scalar _ => Fault IndexError
     | Arr items => list_item items i
     end).

Fixpoint argmax_from (best : Q) (best_i i : nat) (l : list Q) : nat :=
  match l with
  | [] => best_i
  | x :: l' =>
      if Qle_bool x best then argmax_from best best_i (S i) l'
      else argmax_from x i (S i) l'
  end.

(** [a.argmax()]: the index of the first maximum of the flattened array. *)
Definition np_argmax (a : ndarray) : M Z :=
  call (Lib "numpy.ndarray.argmax")
    (match flatten a with
     | [] => Fault ValueError
     | x :: l => Ok (Z.of_nat (argmax_from x 0 1 l))
     end).

Definition round_half_even (x : Q) : Q :=
  let f := Qfloor x in
  let d := (x - inject_Z f)%Q in
  if Qle_bool d (1 # 2)%Q then
    if Qle_bool (1 # 2)%Q d then
      if Z.even f then inject_Z f else inject_Z (f + 1)
    else inject_Z f
  else inject_Z (f + 1).

Fixpoint nd_map (f : Q -> Q) (a : ndarray) : ndarray :=
  match a with
  | Scalar x => Scalar (f x)
  | Arr items => Arr (map (nd_map f) items)
  end.

Definition tf_round (a : ndarray) : M ndarray :=
  call (Lib "tf.round") (Ok (nd_map round_half_even a)).

(** [t[i]] on a tensor. *)
Definition tensor_getitem (a : ndarray) (i : Z) : M ndarray :=
  call (Lib "tf.Tensor.__getitem__")
    (match a with
     | Scalar _ => Fault InvalidArgumentError
     | Arr items =>
         match list_item items i with
         | Ok b => Ok b
         | Fault _ => Fault InvalidArgumentError
         end
     end).

(** [tf.expand_dims(img, axis=0)] *)
Definition tf_expand_dims (img : tensor3) : list tensor3 := [img].

Definition model_predict (m : model) (batch : list tensor3) : M ndarray :=
  call (Lib "model.predict") (predict m batch).

Definition np_astype_float (cm : list (list nat)) : list (list Q) :=
  map (map (fun n => inject_Z (Z.of_nat n))) cm.

(** [cm.sum(axis=1)] *)
Definition np_sum_axis1 (cm : list (list nat)) : list nat :=
  map (fun row => foldr Nat.add 0%nat row) cm.

(** [v[:, np.newaxis]] *)
Definition np_newaxis (v : list nat) : list (list nat) :=
  map (fun s => [s]) v.

(** [a / col] with [col] a column broadcast along the rows.  A division
    by zero is not a fault: it yields NaN ([None]) and NumPy reports a
    [RuntimeWarning]. *)
Definition np_divide (a : list (list Q)) (col : list (list nat))
    : M (list (list (option Q))) :=
  (if existsb (fun c => (hd 0%nat c =? 0)%nat) col
   then emit (Warn "RuntimeWarning: invalid value encountered in divide")
   else ret tt) ;;
  call (Lib "numpy.divide")
    (Ok (zip_with (fun row c =>
           map (fun v => if (hd 0%nat c =? 0)%nat then None
                         else Some (v / inject_Z (Z.of_nat (hd 0%nat c)))%Q) row)
         a col)).

(** ** scikit-learn metrics (library model) *)

(** How many positions [i] have [p y_true[i] y_pred[i]]. *)
Fixpoint count_where (p : Z -> Z -> bool) (y_true y_pred : list Z) : nat :=
  match y_true, y_pred with
  | t :: ts, q :: qs => (if p t q then 1 else 0) + count_where p ts qs
  | _, _ => 0
  end.

(** The labels that occur, in increasing order. *)
Definition unique_labels (y_true y_pred : list Z) : list Z :=
  merge_sort Z.le (remove_dups (y_true ++ y_pred)).

Definition ratio (a b : nat) : Q :=
  (inject_Z (Z.of_nat a) / inject_Z (Z.of_nat b))%Q.

(** A metric whose denominator is zero is set to 0 ([zero_division]). *)
Definition safe_ratio (a b : nat) : Q :=
  if (b =? 0)%nat then 0%Q else ratio a b.

Definition same_length (y_true y_pred : list Z) : bool :=
  (length y_true =? length y_pred)%nat.

(** A label that fits a 64-bit integer. *)
Definition int64_label (l : Z) : bool :=
  (- 2 ^ 63 <=? l)%Z && (l <? 2 ^ 63)%Z.

(** The check the metrics make of their two arrays: the same number of
    samples, at least one, and labels that are 64-bit integers.  Arrays
    that fail it are refused with [ValueError]. *)
Definition valid_targets (y_true y_pred : list Z) : bool :=
  same_length y_true y_pred && (0 <? length y_true)%nat &&
  forallb int64_label y_true && forallb int64_label y_pred.

(** [accuracy_score]: the fraction of positions where the labels agree. *)
Definition accuracy_score (y_true y_pred : list Z) : M Q :=
  call (Lib "sklearn.metrics.accuracy_score")
    (if valid_targets y_true y_pred
     then Ok (ratio (count_where Z.eqb y_true y_pred) (length y_true))
     else Fault ValueError).

(** [confusion_matrix]: entry (i, j) counts the samples of true label
    [labels[i]] predicted as [labels[j]]. *)
Definition confusion_counts (y_true y_pred : list Z) : list (list nat) :=
  let labels := unique_labels y_true y_pred in
  map (fun li =>
    map (fun lj =>
      count_where (fun t q => (t =? li)%Z && (q =? lj)%Z) y_true y_pred)
      labels) labels.

Definition confusion_matrix (y_true y_pred : list Z) : M (list (list nat)) :=
  call (Lib "sklearn.metrics.confusion_matrix")
    (if valid_targets y_true y_pred
     then Ok (confusion_counts y_true y_pred)
     else Fault ValueError).

Definition true_positives (l : Z) (y_true y_pred : list Z) : nat :=
  count_where (fun t q => (t =? l)%Z && (q =? l)%Z) y_true y_pred.
Definition pred_sum (l : Z) (y_true y_pred : list Z) : nat :=
  count_where (fun _ q => (q =? l)%Z) y_true y_pred.
Definition true_sum (l : Z) (y_true y_pred : list Z) : nat :=
  count_where (fun t _ => (t =? l)%Z) y_true y_pred.

Definition precision_of (l : Z) (y_true y_pred : list Z) : Q :=
  safe_ratio (true_positives l y_true y_pred) (pred_sum l y_true y_pred).
Definition recall_of (l : Z) (y_true y_pred : list Z) : Q :=
  safe_ratio (true_positives l y_true y_pred) (true_sum l y_true y_pred).
Definition f1_of (l : Z) (y_true y_pred : list Z) : Q :=
  let p := precision_of l y_true y_pred in
  let r := recall_of l y_true y_pred in
  if Qeq_bool (p + r)%Q 0%Q then 0%Q else (2 * p * r / (p + r))%Q.

Definition Qsum (l : list Q) : Q := foldr Qplus 0%Q l.

(** [np.average(values, weights=weights)], 0 when the weights sum to 0. *)
Definition weighted_average (values : list Q) (weights : list nat) : Q :=
  let total := foldr Nat.add 0%nat weights in
  if (total =? 0)%nat then 0%Q
  else (Qsum (zip_with (fun v w => (inject_Z (Z.of_nat w) * v)%Q) values weights)
        / inject_Z (Z.of_nat total))%Q.

(** [precision_recall_fscore_support(..., average="weighted")]: the
    per-label metrics averaged with the labels' supports as weights; the
    fourth component is [None].  A label without predicted samples raises
    an [UndefinedMetricWarning] about the precision, a label without true
    samples one about the recall. *)
Definition precision_recall_fscore_support_weighted (y_true y_pred : list Z)
    : M (Q * Q * Q * option (list nat)) :=
  let labels := unique_labels y_true y_pred in
  let support := map (fun l => true_sum l y_true y_pred) labels in
  (if valid_targets y_true y_pred &&
      existsb (fun l => (pred_sum l y_true y_pred =? 0)%nat) labels
   then emit (Warn "UndefinedMetricWarning: Precision is ill-defined")
   else ret tt) ;;
  (if valid_targets y_true y_pred &&
      existsb (fun l => (true_sum l y_true y_pred =? 0)%nat) labels
   then emit (Warn "UndefinedMetricWarning: Recall is ill-defined")
   else ret tt) ;;
  call (Lib "sklearn.metrics.precision_recall_fscore_support")
    (if valid_targets y_true y_pred
     then Ok (weighted_average
                (map (fun l => precision_of l y_true y_pred) labels) support,
              weighted_average
                (map (fun l => recall_of l y_true y_pred) labels) support,
              weighted_average
                (map (fun l => f1_of l y_true y_pred) labels) support,
              None)
     else Fault ValueError).

(** ** Plotting (library model) *)

(** A figure object; the code only calls [savefig] on it. *)
Inductive figure := Fig.

(** mlxtend's [plot_confusion_matrix]: it asserts that one of the two
    displays is requested and that there is one class name per class. *)
Definition plot_confusion_matrix (figsize : Z * Z) (conf_mat : list (list nat))
    (show_absolute show_normed colorbar : bool)
    (class_names : option (list string)) : M figure :=
  call (Out (ConfusionPlot conf_mat figsize show_absolute show_normed
               colorbar class_names))
    (if negb (show_absolute || show_normed) then Fault AssertionError
     else match class_names with
          | Some names =>
              if (length names =? length conf_mat)%nat then Ok Fig
              else Fault AssertionError
          | None => Ok Fig
          end).

Definition plt_xlabel (s : string) (fontsize : option Z) : M unit :=
  emit (Xlabel s fontsize).
Definition plt_ylabel (s : string) (fontsize : option Z) : M unit :=
  emit (Ylabel s fontsize).
Definition plt_title (s : string) (fontsize : option Z) : M unit :=
  emit (Title s fontsize).
Definition plt_show : M unit := emit Show.
Definition plt_imshow (img : tensor3) : M unit := emit (Imshow img).
Definition plt_axis (on : bool) : M unit := emit (Axis on).
Definition plt_legend (loc : option string) : M unit := emit (Legend loc).
Definition plt_figure (figsize : option (Z * Z)) : M unit :=
  emit (Figure figsize).
Definition plt_subplot (nrows ncols index : Z) : M unit :=
  emit (Subplot nrows ncols index).

(** [plt.plot(x, y, label=...)] needs [x] and [y] of the same length;
    [plt.plot(y, label=...)] plots [y] against its indices. *)
Definition plt_plot (xs : option (list Z)) (ys : list Q) (label : string)
    : M unit :=
  call (Out (Plot xs ys label))
    (match xs with
     | Some xs => if (length xs =? length ys)%nat then Ok tt
                  else Fault ValueError
     | None => Ok tt
     end).

(** [plt.ylim()] without arguments reads the current y-limits. *)
Definition plt_ylim : M (Q * Q) :=
  prim (Lib "plt.ylim")
    (fun w => (Ok (autoscale (mach w) (outputs (log w))), mach w)).

(** [fig.savefig(fname)] writes the rendered figure to [fname]. *)
Definition fig_savefig (fig : figure) (fname : string) : M unit :=
  prim (Out (Savefig fname))
    (fun w =>
       (Ok tt,
        with_files (<[fname := Png (outputs (log w))]> (fs (mach w)))
                   (mach w))).

(** ** [zipfile], [os], [datetime] and the TensorBoard callback
       (library model) *)

Record zip_ref := {
  handle : nat;
  members : list (string * option file)
}.

(** [zipfile.ZipFile(filename, "r")]: a path that names no file raises
    what the machine's [open_error] says, a file that is not an archive
    [BadZipFile]; nothing stays open in either case. *)
Definition ZipFile (filename : string) : M zip_ref :=
  prim (Lib "zipfile.ZipFile")
    (fun w =>
       match fs (mach w) !! filename with
       | None => (Fault (open_error (mach w) filename), mach w)
       | Some (Zip ms) =>
           (Ok {| handle := next_handle (mach w); members := ms |},
            with_handles (next_handle (mach w) :: open_handles (mach w))
                         (S (next_handle (mach w))) (mach w))
       | Some _ => (Fault BadZipFile, mach w)
       end).

Definition is_open (h : nat) (m : machine) : bool :=
  existsb (Nat.eqb h) (open_handles m).

(** [zip_ref.extractall()]: the extraction is the machine's; it may
    fail on a damaged member, on member names that clash, or on the
    target directory, and it leaves whatever files it wrote. *)
Definition zip_extractall (z : zip_ref) : M unit :=
  prim (Lib "ZipFile.extractall")
    (fun w =>
       if is_open (handle z) (mach w) then
         (fst (extraction (mach w) (members z) (fs (mach w))),
          with_files (snd (extraction (mach w) (members z) (fs (mach w))))
                     (mach w))
       else (Fault ValueError, mach w)).

Definition zip_close (z : zip_ref) : M unit :=
  prim (Lib "ZipFile.close")
    (fun w =>
       (Ok tt,
        with_handles
          (List.filter (fun h => negb (h =? handle z)%nat)
                       (open_handles (mach w)))
          (next_handle (mach w)) (mach w))).

(** [os.walk(dir_path)]: errors of the directory scan are ignored by
    default, so a missing directory yields nothing; a malformed path is
    a fault. *)
Definition os_walk (dir_path : string)
    : M (list (string * list string * list string)) :=
  prim (Lib "os.walk") (fun w => (tree (mach w) dir_path, mach w)).

Definition datetime_now_strftime : M string :=
  prim (Lib "datetime.now.strftime") (fun w => (Ok (clock (mach w)), mach w)).

Inductive callback := TensorBoardCallback (log_dir : string).

Definition TensorBoard (log_dir : string) : M callback :=
  call (Lib "tf.keras.callbacks.TensorBoard") (Ok (TensorBoardCallback log_dir)).

(** A training history object: [history.history] is a dict from metric
    names to per-epoch values. *)
Record History := { history : gmap string (list Q) }.

(** * The functions of [main.py] *)

Definition default_figsize : Z * Z := (10, 10)%Z.
Definition default_text_size : Z := 18.
Definition default_norm : bool := true.
Definition default_savefig : bool := false.

Definition make_confusion_matrix (y_true y_pred : list Z)
    (classes : option (list string)) (figsize : Z * Z) (text_size : Z)
    (norm savefig : bool) : M unit :=
  cm <- confusion_matrix y_true y_pred ;;
  cm_norm <- np_divide (np_astype_float cm) (np_newaxis (np_sum_axis1 cm)) ;;
  fig <- plot_confusion_matrix figsize cm true norm true classes ;;
  plt_xlabel "Predictions" (Some text_size) ;;
  plt_ylabel "Actuals" (Some text_size) ;;
  plt_title "Confusion Matrix" (Some text_size) ;;
  plt_show ;;
  if savefig then fig_savefig fig "confusion_matrix.png" else ret tt.

Definition pred_and_plot (m : model) (filename : string)
    (class_names : list string) : M unit :=
  img <- enter F_load_and_prep_image
           (load_and_prep_image filename default_img_shape default_normalize) ;;
  pred <- model_predict m (tf_expand_dims img) ;;
  pred_class <-
    (row <- np_getitem pred 0 ;;
     n <- py_len row ;;
     if (1 <? n)%nat then
       i <- np_argmax pred ;;
       py_getitem class_names (IntIndex i)
     else
       row <- np_getitem pred 0 ;;
       first <- np_getitem row 0 ;;
       n <- py_len first ;;
       if (1 <? n)%nat then
         _ <- np_getitem pred 0 ;;
         py_getitem class_names (MethodIndex "argmax")
       else
         rounded <- tf_round pred ;;
         r0 <- tensor_getitem rounded 0 ;;
         r00 <- tensor_getitem r0 0 ;;
         i <- py_int r00 ;;
         py_getitem class_names (IntIndex i)) ;;
  plt_imshow img ;;
  plt_title ("Prediction: " +:+ pred_class) None ;;
  plt_axis false.

Definition create_tensorboard_callback (dir_name experiment_name : string)
    : M callback :=
  stamp <- datetime_now_strftime ;;
  let log_dir := dir_name +:+ "/" +:+ experiment_name +:+ "/" +:+ stamp in
  tensorboard_callback <- TensorBoard log_dir ;;
  print ("Saving Tensorboard log files to: " +:+ log_dir) ;;
  ret tensorboard_callback.

Definition plot_loss_curves (h : History) : M unit :=
  loss <- dict_getitem (history h) "loss" ;;
  val_loss <- dict_getitem (history h) "val_loss" ;;
  accuracy <- dict_getitem (history h) "accuracy" ;;
  val_accuracy <- dict_getitem (history h) "val_accuracy" ;;
  let epochs := range (length loss) in
  plt_plot (Some epochs) loss "training_loss" ;;
  plt_plot (Some epochs) val_loss "val_loss" ;;
  plt_title "Loss" None ;;
  plt_xlabel "Epochs" None ;;
  plt_legend None ;;
  plt_figure None ;;
  plt_plot (Some epochs) accuracy "accuracy" ;;
  plt_plot (Some epochs) val_accuracy "val_accuracy" ;;
  plt_title "Accuracy" None ;;
  plt_xlabel "Epochs" None ;;
  plt_legend None.

Definition default_initial_epochs : Z := 5.

Definition compare_history (original_history new_history : History)
    (initial_epochs : Z) : M unit :=
  acc <- dict_getitem (history original_history) "accuracy" ;;
  loss <- dict_getitem (history original_history) "loss" ;;
  val_acc <- dict_getitem (history original_history) "val_accuracy" ;;
  val_loss <- dict_getitem (history original_history) "val_loss" ;;
  new_acc <- dict_getitem (history new_history) "accuracy" ;;
  let total_acc := acc ++ new_acc in
  new_loss <- dict_getitem (history new_history) "loss" ;;
  let total_loss := loss ++ new_loss in
  new_val_acc <- dict_getitem (history new_history) "val_accuracy" ;;
  let total_val_acc := val_acc ++ new_val_acc in
  new_val_loss <- dict_getitem (history new_history) "val_loss" ;;
  let total_val_loss := val_loss ++ new_val_loss in
  plt_figure (Some (8, 8)%Z) ;;
  plt_subplot 2 1 1 ;;
  plt_plot None total_acc "Training Accuracy" ;;
  plt_plot None total_val_acc "Validation Accuracy" ;;
  lim <- plt_ylim ;;
  plt_plot (Some [initial_epochs - 1; initial_epochs - 1]%Z)
           [fst lim; snd lim] "Start Fine Tuning" ;;
  plt_legend (Some "lower right") ;;
  plt_title "Training and Validation Accuracy" None ;;
  plt_subplot 2 1 2 ;;
  plt_plot None total_loss "Training Loss" ;;
  plt_plot None total_val_loss "Validation Loss" ;;
  lim <- plt_ylim ;;
  plt_plot (Some [initial_epochs - 1; initial_epochs - 1]%Z)
           [fst lim; snd lim] "Start Fine Tuning" ;;
  plt_legend (Some "upper right") ;;
  plt_title "Training and Validation Loss" None ;;
  plt_xlabel "epoch" None ;;
  plt_show.

Definition unzip_data (filename : string) : M unit :=
  zip_ref <- ZipFile filename ;;
  zip_extractall zip_ref ;;
  zip_close zip_ref.

Definition walk_through_dir (dir_path : string) : M unit :=
  triples <- os_walk dir_path ;;
  for_each triples (fun '(dirpath, dirnames, filenames) =>
    print ("There are " +:+ pretty (length dirnames) +:+ " directories and "
           +:+ pretty (length filenames) +:+ " images in '" +:+ dirpath
           +:+ "'.")).

Definition calculate_results (y_true y_pred : list Z) : M (gmap string Q) :=
  score <- accuracy_score y_true y_pred ;;
  let model_accuracy := (score * 100)%Q in
  prfs <- precision_recall_fscore_support_weighted y_true y_pred ;;
  let '(model_precision, model_recall, model_f1, _) := prfs in
  let model_results : gmap string Q :=
    <["accuracy" := model_accuracy]>
      (<["precision" := model_precision]>
         (<["recall" := model_recall]>
            (<["f1" := model_f1]> ∅))) in
  ret model_results.

(** ** Calls from an experimentation script *)

(** One call of a function of [main.py] with its arguments. *)
Inductive invocation :=
| Call_load_and_prep_image (filename : string) (img_shape : Z)
    (normalize : bool)
| Call_make_confusion_matrix (y_true y_pred : list Z)
    (classes : option (list string)) (figsize : Z * Z) (text_size : Z)
    (norm savefig : bool)
| Call_pred_and_plot (m : model) (filename : string)
    (class_names : list string)
| Call_create_tensorboard_callback (dir_name experiment_name : string)
| Call_plot_loss_curves (h : History)
| Call_compare_history (original_history new_history : History)
    (initial_epochs : Z)
| Call_unzip_data (filename : string)
| Call_walk_through_dir (dir_path : string)
| Call_calculate_results (y_true y_pred : list Z).

Definition callee (c : invocation) : func :=
  match c with
  | Call_load_and_prep_image _ _ _ => F_load_and_prep_image
  | Call_make_confusion_matrix _ _ _ _ _ _ _ => F_make_confusion_matrix
  | Call_pred_and_plot _ _ _ => F_pred_and_plot
  | Call_create_tensorboard_callback _ _ => F_create_tensorboard_callback
  | Call_plot_loss_curves _ => F_plot_loss_curves
  | Call_compare_history _ _ _ => F_compare_history
  | Call_unzip_data _ => F_unzip_data
  | Call_walk_through_dir _ => F_walk_through_dir
  | Call_calculate_results _ _ => F_calculate_results
  end.

(** Run a computation for its effects and its fault, dropping the value. *)
Definition void {A} (m : M A) : M unit := _ <- m ;; ret tt.

Definition invoke (c : invocation) : M unit :=
  match c with
  | Call_load_and_prep_image filename img_shape normalize =>
      void (load_and_prep_image filename img_shape normalize)
  | Call_make_confusion_matrix y_true y_pred classes figsize text_size
      norm savefig =>
      make_confusion_matrix y_true y_pred classes figsize text_size
        norm savefig
  | Call_pred_and_plot m filename class_names =>
      pred_and_plot m filename class_names
  | Call_create_tensorboard_callback dir_name experiment_name =>
      void (create_tensorboard_callback dir_name experiment_name)
  | Call_plot_loss_curves h => plot_loss_curves h
  | Call_compare_history original_history new_history initial_epochs =>
      compare_history original_history new_history initial_epochs
  | Call_unzip_data filename => unzip_data filename
  | Call_walk_through_dir dir_path => walk_through_dir dir_path
  | Call_calculate_results y_true y_pred =>
      void (calculate_results y_true y_pred)
  end.

(** * What a run's log tells *)

Definition raised (en : entry) : option exn :=
  match en with
  | Call _ (Raised e) => Some e
  | _ => None
  end.

(** No operation of [evs] raised. *)
Definition faultless (evs : list entry) : Prop :=
  Forall (fun en => raised en = None) evs.

(** How a run's added log entries [evs] relate to its outcome [r]: a run
    that returns saw no operation raise; a run that ends in the fault [e]
    ends its log with the operation that raised [e], every operation
    before it having returned. *)
Definition propagated {A} (evs : list entry) (r : outcome A) : Prop :=
  match r with
  | Ok _ => faultless evs
  | Fault e =>
      exists pre o, evs = pre ++ [Call o (Raised e)] /\ faultless pre
  end.

Definition propagating {A} (m : M A) : Prop :=
  forall w, exists evs,
    log (snd (m w)) = log w ++ evs /\ propagated evs (fst (m w)).

(** Whether an operation is a call into a library, as opposed to a
    built-in operation evaluated by the code of [main.py] itself. *)
Definition by_library (o : op) : bool :=
  match o with
  | Lib _ => true
  | Builtin _ => false
  | Out (Print _) => false
  | Out _ => true
  end.

Definition is_enter (en : entry) : bool :=
  match en with
  | Enter _ => true
  | Call _ _ => false
  end.

(** A computation that calls no function of [main.py]. *)
Definition leaf {A} (m : M A) : Prop :=
  forall w, exists evs,
    log (snd (m w)) = log w ++ evs /\ Forall (fun en => is_enter en = false) evs.

(** ** Vocabulary of the results *)

(** The number of channels of a JPEG raster. *)
Definition channels (r : list (list (list Z))) : nat :=
  length (hd [] (hd [] r)).

(** The run from [w] to [w'] wrote the figure file [fname]. *)
Definition writes_file (fname : string) (w w' : world) : Prop :=
  In (Savefig fname) (outputs (added (log w) (log w'))) /\
  exists fig, fs (mach w') = <[fname := Png fig]> (fs (mach w)).

(** The run from [w] to [w'] left the file system alone. *)
Definition no_file_output (w w' : world) : Prop :=
  fs (mach w') = fs (mach w) /\
  forall fname, ~ In (Savefig fname) (outputs (added (log w) (log w'))).

(** [make_confusion_matrix] with the computation of [cm_norm] left out
    and everything else as in the source. *)
Definition make_confusion_matrix_without_cm_norm (y_true y_pred : list Z)
    (classes : option (list string)) (figsize : Z * Z) (text_size : Z)
    (norm savefig : bool) : M unit :=
  cm <- confusion_matrix y_true y_pred ;;
  fig <- plot_confusion_matrix figsize cm true norm true classes ;;
  plt_xlabel "Predictions" (Some text_size) ;;
  plt_ylabel "Actuals" (Some text_size) ;;
  plt_title "Confusion Matrix" (Some text_size) ;;
  plt_show ;;
  if savefig then fig_savefig fig "confusion_matrix.png" else ret tt.

(** What can be observed of a run: its outcome, the machine it leaves
    and the output it produced. *)
Definition observation {A} (run : outcome A * world)
    : outcome A * machine * list output :=
  (fst run, mach (snd run), outputs (log (snd run))).

(** The reading of the specification under which no function of
    [main.py] calls another one. *)
Definition no_function_calls_another : Prop :=
  forall (c : invocation) (w : world) (g : func),
    ~ In (Enter g) (added (log w) (log (snd (invoke c w)))).

(** The reading of the specification under which every fault is raised
    by a library call. *)
Definition every_fault_is_a_library_fault : Prop :=
  forall (c : invocation) (w : world) (e : exn),
    fst (invoke c w) = Fault e ->
    exists pre o,
      added (log w) (log (snd (invoke c w))) = pre ++ [Call o (Raised e)] /\
      faultless pre /\ by_library o = true.

(** The reading of the specification under which every valid JPEG
    loads as a three-channel tensor. *)
Definition every_jpeg_loads_with_three_channels : Prop :=
  forall (w : world) (filename : string) (raster : list (list (list Z))),
    fs (mach w) !! filename = Some (Jpeg raster) ->
    valid_raster raster = true ->
    exists t : tensor3,
      fst (load_and_prep_image filename default_img_shape default_normalize w)
        = Ok t /\
      has_shape t 224 224 3 /\ values_within 0 1 t.

(** ** Sample data *)

(** An extraction for the sample archives, whose member names are plain
    and distinct: the members are written in order, and a member whose
    data fails its checksum is left empty and ends the extraction. *)
Fixpoint sample_extraction (ms : list (string * option file))
    (files : gmap string file) : outcome unit * gmap string file :=
  match ms with
  | [] => (Ok tt, files)
  | (name, Some f) :: ms' => sample_extraction ms' (<[name := f]> files)
  | (name, None) :: _ => (Fault BadZipFile, <[name := Blob EmptyString]> files)
  end.

Definition sample_machine (files : gmap string file) : machine :=
  {| fs := files;
     open_handles := [];
     next_handle := 0;
     clock := "20240101-120000";
     tree := fun _ => Ok [];
     autoscale := fun _ => (0%Q, 1%Q);
     open_error := fun _ => FileNotFoundError;
     decode_other := fun _ => Fault InvalidArgumentError;
     resize_other := fun _ _ => Fault ValueError;
     extraction := sample_extraction |}.

Definition sample_world (files : gmap string file) : world :=
  {| mach := sample_machine files; log := [] |}.

(** A machine whose archive "data.zip" holds a member "a" and a member
    "a/b": extracting the second finds a file where it needs a
    directory. *)
Definition clashing_machine : machine :=
  {| fs := <["data.zip" :=
               Zip [("a", Some (Blob "x")); ("a/b", Some (Blob "y"))]]> ∅;
     open_handles := [];
     next_handle := 0;
     clock := "20240101-120000";
     tree := fun _ => Ok [];
     autoscale := fun _ => (0%Q, 1%Q);
     open_error := fun _ => FileNotFoundError;
     decode_other := fun _ => Fault InvalidArgumentError;
     resize_other := fun _ _ => Fault ValueError;
     extraction := fun _ files =>
                     (Fault NotADirectoryError, <["a" := Blob "x"]> files) |}.

(** What [calculate_results] returns on the sample machine; the empty
    dictionary stands for a run that raises. *)
Definition sample_results (y_true y_pred : list Z) : gmap string Q :=
  match fst (calculate_results y_true y_pred (sample_world ∅)) with
  | Ok d => d
  | Fault _ => ∅
  end.

Definition gray_jpeg : file := Jpeg [[[128%Z]]].

Definition colour_jpeg : file :=
  Jpeg [[[0; 0; 0]; [255; 255; 255]]; [[10; 20; 30]; [40; 50; 60]]]%Z.

(** A path that holds a NUL character. *)
Definition nul_path : string :=
  "data" +:+ String (Ascii.ascii_of_nat 0) EmptyString.

(** A machine with a directory "data" of two sub-directories and one
    file; its [os.walk] refuses every other path but yields nothing. *)
Definition data_machine : machine :=
  {| fs := <["data/readme.txt" := Blob "r"]>
             (<["data/train/1.jpg" := gray_jpeg]>
                (<["data/train/2.jpg" := colour_jpeg]> ∅));
     open_handles := [];
     next_handle := 0;
     clock := "20240101-120000";
     tree := fun path =>
               if String.eqb path "data" then
                 Ok [("data", ["train"; "test"], ["readme.txt"]);
                     ("data/train", [], ["1.jpg"; "2.jpg"]);
                     ("data/test", [], [])]
               else if String.eqb path nul_path then Fault ValueError
               else Ok [];
     autoscale := fun _ => (0%Q, 1%Q);
     open_error := fun path =>
                     if String.eqb path "data" then IsADirectoryError
                     else if String.eqb path nul_path then ValueError
                     else FileNotFoundError;
     decode_other := fun _ => Fault InvalidArgumentError;
     resize_other := fun _ _ => Fault ValueError;
     extraction := sample_extraction |}.

(** A model with a single sigmoid output. *)
Definition sigmoid_model : model :=
  {| predict := fun _ => Ok (Arr [Arr [Scalar (7 # 10)]]) |}.

(** The history of a training run without validation data. *)
Definition history_without_validation : History :=
  let loss : list Q := [(1 # 2)%Q] in
  let accuracy : list Q := [(3 # 4)%Q] in
  {| history := <["loss" := loss]> (<["accuracy" := accuracy]> ∅) |}.

(** Two training runs with validation data: three epochs, then two
    epochs of fine-tuning. *)
Definition epochs3 (a b c : Q) : list Q := [a; b; c].
Definition epochs2 (a b : Q) : list Q := [a; b].

Definition first_training : History :=
  {| history :=
       <["accuracy" := epochs3 (5 # 10) (6 # 10) (7 # 10)]>
         (<["loss" := epochs3 (9 # 10) (7 # 10) (6 # 10)]>
            (<["val_accuracy" := epochs3 (4 # 10) (5 # 10) (6 # 10)]>
               (<["val_loss" := epochs3 1 (8 # 10) (7 # 10)]> ∅))) |}.

Definition fine_tuning : History :=
  {| history :=
       <["accuracy" := epochs2 (8 # 10) (9 # 10)]>
         (<["loss" := epochs2 (5 # 10) (4 # 10)]>
            (<["val_accuracy" := epochs2 (7 # 10) (8 # 10)]>
               (<["val_loss" := epochs2 (6 # 10) (5 # 10)]> ∅))) |}.

(** ** Vocabulary of the further results *)


(** The first of [keys] that the dict [d] lacks. *)
Definition first_missing (keys : list string) (d : gmap string (list Q))
    : option string :=
  List.find (fun k => match d !! k with
                      | Some _ => false
                      | None => true
                      end) keys.

(** The metrics in the order [plot_loss_curves] reads them, and in the
    order [compare_history] reads them from each history. *)
Definition plot_loss_curves_keys : list string :=
  ["loss"; "val_loss"; "accuracy"; "val_accuracy"].
Definition compare_history_keys : list string :=
  ["accuracy"; "loss"; "val_accuracy"; "val_loss"].

(** The calls that may change the machine: [unzip_data], and
    [make_confusion_matrix] when asked to save the figure. *)
Definition may_write (c : invocation) : bool :=
  match c with
  | Call_unzip_data _ => true
  | Call_make_confusion_matrix _ _ _ _ _ _ savefig => savefig
  | _ => false
  end.

(** A computation that leaves the machine as it found it. *)
Definition preserving {A} (m : M A) : Prop :=
  forall w, mach (snd (m w)) = mach w.

(** ** Further sample data *)

(** A model with three softmax outputs. *)
Definition softmax_model : model :=
  {| predict := fun _ =>
       Ok (Arr [Arr (map Scalar [(1 # 10)%Q; (7 # 10)%Q; (2 # 10)%Q])]) |}.

(** Models whose single output row holds one nested element. *)
Definition nested_pair_model : model :=
  {| predict := fun _ =>
       Ok (Arr [Arr [Arr [Scalar (3 # 10); Scalar (7 # 10)]]]) |}.
Definition nested_single_model : model :=
  {| predict := fun _ => Ok (Arr [Arr [Arr [Scalar (7 # 10)]]]) |}.

(** A history whose validation loss has fewer epochs than its loss. *)
Definition history_with_unequal_epochs : History :=
  {| history :=
       <["loss" := epochs2 (9 # 10) (7 # 10)]>
         (<["val_loss" := epochs3 1 (8 # 10) (7 # 10)]>
            (<["accuracy" := epochs2 (5 # 10) (6 # 10)]>
               (<["val_accuracy" := epochs2 (4 # 10) (5 # 10)]> ∅))) |}.

(** The image [load_and_prep_image] makes of [gray_jpeg] by default. *)
Definition gray_image : tensor3 :=
  tensor_div
    (resize_bilinear (map (map (map inject_Z)) [[[128%Z]]]) 224 224) 255.

(** An archive whose second member fails its checksum. *)
Definition damaged_archive : file :=
  Zip [("a.jpg", Some gray_jpeg); ("b.jpg", None)].

(** * Results *)

(** ** The log of a run *)

Lemma added_app (l evs : list entry) : added l (l ++ evs) = evs.
Proof. unfold added. apply drop_app_length. Qed.

Lemma faultless_app (l1 l2 : list entry) :
  faultless l1 -> faultless l2 -> faultless (l1 ++ l2).
Proof. unfold faultless. intros H1 H2. apply Forall_app. split; assumption. Qed.

Section Propagation.
Context {A B : Type}.

Lemma propagating_ret (a : A) : propagating (ret a).
Proof.
  intros w. exists []. simpl. split.
  - symmetry. apply app_nil_r.
  - constructor.
Qed.

Lemma propagating_prim (o : op) (f : world -> outcome A * machine) :
  propagating (prim o f).
Proof.
  intros w. unfold prim. destruct (f w) as [r m'] eqn:Hf. simpl.
  exists [Call o (status_of r)]. split; [reflexivity|].
  destruct r as [a|e]; simpl.
  - repeat constructor.
  - exists [], o. split; [reflexivity|constructor].
Qed.

Lemma propagating_bind (m : M A) (k : A -> M B) :
  propagating m -> (forall a, propagating (k a)) -> propagating (bind m k).
Proof.
  intros Hm Hk w. unfold bind.
  destruct (Hm w) as (e1 & Hl1 & Hp1).
  destruct (m w) as [[a|e] w1]; simpl in *.
  - destruct (Hk a w1) as (e2 & Hl2 & Hp2).
    exists (e1 ++ e2). split.
    + rewrite Hl2, Hl1. symmetry. apply app_assoc.
    + destruct (fst (k a w1)) as [b|e]; simpl in *.
      * apply faultless_app; assumption.
      * destruct Hp2 as (pre & o & -> & Hpre).
        exists (e1 ++ pre), o. split.
        -- apply app_assoc.
        -- apply faultless_app; assumption.
  - exists e1. split; assumption.
Qed.

Lemma propagating_enter (f : func) (m : M A) :
  propagating m -> propagating (enter f m).
Proof.
  intros Hm w. unfold enter.
  destruct (Hm (record (Enter f) w)) as (evs & Hl & Hp).
  exists (Enter f :: evs). split.
  - rewrite Hl. simpl. rewrite <- app_assoc. reflexivity.
  - destruct (fst (m (record (Enter f) w))) as [a|e]; simpl in *.
    + constructor; [reflexivity|assumption].
    + destruct Hp as (pre & o & -> & Hpre).
      exists (Enter f :: pre), o. split; [reflexivity|].
      constructor; [reflexivity|assumption].
Qed.

Lemma leaf_ret (a : A) : leaf (ret a).
Proof.
  intros w. exists []. simpl. split; [symmetry; apply app_nil_r|constructor].
Qed.

Lemma leaf_prim (o : op) (f : world -> outcome A * machine) :
  leaf (prim o f).
Proof.
  intros w. unfold prim. destruct (f w) as [r m']. simpl.
  exists [Call o (status_of r)]. split; [reflexivity|].
  repeat constructor.
Qed.

Lemma leaf_bind (m : M A) (k : A -> M B) :
  leaf m -> (forall a, leaf (k a)) -> leaf (bind m k).
Proof.
  intros Hm Hk w. unfold bind.
  destruct (Hm w) as (e1 & Hl1 & Hp1).
  destruct (m w) as [[a|e] w1]; simpl in *.
  - destruct (Hk a w1) as (e2 & Hl2 & Hp2).
    exists (e1 ++ e2). split.
    + rewrite Hl2, Hl1. symmetry. apply app_assoc.
    + apply Forall_app. split; assumption.
  - exists e1. split; assumption.
Qed.
End Propagation.

Lemma propagating_for_each {A} (l : list A) (body : A -> M unit) :
  (forall x, propagating (body x)) -> propagating (for_each l body).
Proof.
  intros Hb. induction l as [|x l IH]; simpl.
  - apply propagating_ret.
  - apply propagating_bind; [apply Hb|intros _; exact IH].
Qed.

Lemma leaf_for_each {A} (l : list A) (body : A -> M unit) :
  (forall x, leaf (body x)) -> leaf (for_each l body).
Proof.
  intros Hb. induction l as [|x l IH]; simpl.
  - apply leaf_ret.
  - apply leaf_bind; [apply Hb|intros _; exact IH].
Qed.

Create HintDb py_ops.
#[local] Hint Unfold tf_io_read_file tf_image_decode_jpeg tf_image_resize
  py_getitem dict_getitem py_len py_int print np_getitem np_argmax tf_round
  tensor_getitem model_predict np_divide accuracy_score confusion_matrix
  precision_recall_fscore_support_weighted plot_confusion_matrix plt_xlabel
  plt_ylabel plt_title plt_show plt_imshow plt_axis plt_legend plt_figure
  plt_subplot plt_plot plt_ylim fig_savefig ZipFile zip_extractall zip_close
  os_walk datetime_now_strftime TensorBoard emit call void : py_ops.

(** Decompose a computation into its primitive operations. *)
Ltac walk bind_lemma ret_lemma prim_lemma each_lemma :=
  repeat match goal with
         | |- _ (ret _) => apply ret_lemma
         | |- _ (prim _ _) => apply prim_lemma
         | |- _ (bind _ _) => apply bind_lemma; [|intros]
         | |- _ (for_each _ _) => apply each_lemma; intros
         | |- _ (if ?b then _ else _) => destruct b
         | |- _ (match ?x with _ => _ end) => destruct x
         | |- _ => progress autounfold with py_ops
         end.

Ltac propagate :=
  walk (@propagating_bind) (@propagating_ret) (@propagating_prim)
       (@propagating_for_each).

Ltac leaves :=
  walk (@leaf_bind) (@leaf_ret) (@leaf_prim) (@leaf_for_each).

Lemma propagating_load_and_prep_image filename img_shape normalize :
  propagating (load_and_prep_image filename img_shape normalize).
Proof. unfold load_and_prep_image. propagate. Qed.

Lemma leaf_load_and_prep_image filename img_shape normalize :
  leaf (load_and_prep_image filename img_shape normalize).
Proof. unfold load_and_prep_image. leaves. Qed.

(** ** Image loading *)


Lemma lerp_weight_bounds (x : Q) : (0 <= lerp_weight x)%Q /\ (lerp_weight x <= 1)%Q.
Proof.
  unfold lerp_weight.
  pose proof (Qfloor_le x) as Hlo.
  pose proof (Qlt_floor x) as Hhi.
  rewrite inject_Z_plus in Hhi.
  change (inject_Z 1) with 1%Q in Hhi.
  split; lra.
Qed.

Lemma lerp_between (lo hi a b t : Q) :
  (lo <= a)%Q /\ (a <= hi)%Q -> (lo <= b)%Q /\ (b <= hi)%Q ->
  (0 <= t)%Q /\ (t <= 1)%Q ->
  (lo <= lerp a b t)%Q /\ (lerp a b t <= hi)%Q.
Proof.
  unfold lerp. intros [Ha1 Ha2] [Hb1 Hb2] [Ht1 Ht2]. split; nra.
Qed.

Lemma div_255_bounds (v : Q) :
  (0 <= v)%Q /\ (v <= 255)%Q -> (0 <= v / 255)%Q /\ (v / 255 <= 1)%Q.
Proof.
  intros [H1 H2]. split.
  - apply Qle_shift_div_l; lra.
  - apply Qle_shift_div_r; lra.
Qed.

Lemma nth_Forall {A} (P : A -> Prop) (l : list A) (d : A) (i : nat) :
  Forall P l -> P d -> P (nth i l d).
Proof.
  intros Hl Hd. revert i. induction Hl as [|x l Hx Hl IH]; intros [|i]; simpl; auto.
Qed.

Lemma sample_bounds (lo hi : Q) (img : tensor3) (y x ch : nat) :
  values_within lo hi img -> (lo <= 0)%Q /\ (0 <= hi)%Q ->
  (lo <= sample img y x ch)%Q /\ (sample img y x ch <= hi)%Q.
Proof.
  intros Himg H0. unfold sample.
  apply (nth_Forall (fun v => (lo <= v)%Q /\ (v <= hi)%Q)); [|exact H0].
  apply (nth_Forall (Forall (fun v => (lo <= v)%Q /\ (v <= hi)%Q))); [|constructor].
  apply (nth_Forall (Forall (Forall (fun v => (lo <= v)%Q /\ (v <= hi)%Q))));
    [exact Himg|constructor].
Qed.

Lemma Forall_map_seq {A} (P : A -> Prop) (f : nat -> A) (a n : nat) :
  (forall i, P (f i)) -> Forall P (map f (seq a n)).
Proof.
  intros H. apply List.Forall_map. apply List.Forall_forall. intros i _. apply H.
Qed.

Lemma resize_bilinear_shape (img : tensor3) (out_h out_w : nat) :
  has_shape (resize_bilinear img out_h out_w) out_h out_w
            (length (hd [] (hd [] img))).
Proof.
  unfold has_shape, resize_bilinear. split.
  - rewrite length_map, length_seq. reflexivity.
  - apply Forall_map_seq. intros oy. split.
    + rewrite length_map, length_seq. reflexivity.
    + apply Forall_map_seq. intros ox.
      rewrite length_map, length_seq. reflexivity.
Qed.

Lemma resize_bilinear_range (lo hi : Q) (img : tensor3) (out_h out_w : nat) :
  values_within lo hi img -> (lo <= 0)%Q /\ (0 <= hi)%Q ->
  values_within lo hi (resize_bilinear img out_h out_w).
Proof.
  intros Himg H0. unfold values_within, resize_bilinear.
  apply Forall_map_seq. intros oy.
  apply Forall_map_seq. intros ox.
  apply Forall_map_seq. intros ch.
  repeat apply lerp_between;
    solve [apply sample_bounds; assumption | apply lerp_weight_bounds].
Qed.

Lemma tensor_div_shape (t : tensor3) (d : Q) (h w c : nat) :
  has_shape t h w c -> has_shape (tensor_div t d) h w c.
Proof.
  unfold has_shape, tensor_div. intros [Hh Hrows]. split.
  - rewrite length_map. exact Hh.
  - apply List.Forall_map. eapply Forall_impl; [exact Hrows|].
    intros row [Hw Hpx]. simpl. split.
    + rewrite length_map. exact Hw.
    + apply List.Forall_map. eapply Forall_impl; [exact Hpx|].
      intros px Hc. simpl. rewrite length_map. exact Hc.
Qed.

Lemma tensor_div_255_range (t : tensor3) :
  values_within 0 255 t -> values_within 0 1 (tensor_div t 255).
Proof.
  unfold values_within, tensor_div. intros H.
  apply List.Forall_map. eapply Forall_impl; [exact H|]. intros row Hrow. simpl.
  apply List.Forall_map. eapply Forall_impl; [exact Hrow|]. intros px Hpx. simpl.
  apply List.Forall_map. eapply Forall_impl; [exact Hpx|]. intros v Hv. simpl.
  apply div_255_bounds. exact Hv.
Qed.

Lemma valid_raster_channels (r : list (list (list Z))) :
  valid_raster r = true -> channels r = 1%nat \/ channels r = 3%nat.
Proof.
  unfold valid_raster, channels. intros H.
  repeat (apply andb_prop in H; destruct H as [H ?]).
  match goal with
  | Hc : (_ || _) = true |- _ =>
      apply orb_prop in Hc; destruct Hc as [Hc|Hc]; apply Nat.eqb_eq in Hc; auto
  end.
Qed.

Lemma valid_raster_nonempty (r : list (list (list Z))) :
  valid_raster r = true ->
  (0 <? length r)%nat = true /\ (0 <? length (hd [] r))%nat = true.
Proof.
  unfold valid_raster. intros H.
  repeat (apply andb_prop in H; destruct H as [H ?]). auto.
Qed.

Lemma valid_raster_range (r : list (list (list Z))) :
  valid_raster r = true -> values_within 0 255 (map (map (map inject_Z)) r).
Proof.
  unfold valid_raster, values_within. intros H.
  apply andb_prop in H. destruct H as [_ H].
  rewrite forallb_forall in H.
  apply List.Forall_map. apply List.Forall_forall. intros row Hrow.
  specialize (H row Hrow). apply andb_prop in H. destruct H as [_ H].
  rewrite forallb_forall in H.
  apply List.Forall_map. apply List.Forall_forall. intros px Hpx.
  specialize (H px Hpx). apply andb_prop in H. destruct H as [_ H].
  rewrite forallb_forall in H.
  apply List.Forall_map. apply List.Forall_forall. intros v Hv.
  specialize (H v Hv). apply andb_prop in H. destruct H as [H1 H2].
  apply Z.leb_le in H1, H2.
  split.
  - change 0%Q with (inject_Z 0). rewrite <- Zle_Qle. exact H1.
  - change 255%Q with (inject_Z 255). rewrite <- Zle_Qle. exact H2.
Qed.

Lemma decoded_channels (r : list (list (list Z))) :
  length (hd [] (hd [] (map (map (map inject_Z)) r))) = channels r.
Proof.
  unfold channels. destruct r as [|[|px row] r]; simpl; try reflexivity.
  apply length_map.
Qed.

Lemma decoded_nonempty (r : list (list (list Z))) :
  length (map (map (map inject_Z)) r) = length r /\
  length (hd [] (map (map (map inject_Z)) r)) = length (hd [] r).
Proof.
  split; [apply length_map|]. destruct r; simpl; [reflexivity|apply length_map].
Qed.

Lemma has_shape_channels_unique (t : tensor3) (h w c c' : nat) :
  (0 < h)%nat -> (0 < w)%nat ->
  has_shape t h w c -> has_shape t h w c' -> c = c'.
Proof.
  intros Hh Hw [Hl1 Hr1] [_ Hr2].
  destruct t as [|row t]; [simpl in Hl1; lia|].
  apply Forall_cons in Hr1 as [[Hw1 Hp1] _].
  apply Forall_cons in Hr2 as [[_ Hp2] _].
  destruct row as [|px row]; [simpl in Hw1; lia|].
  apply Forall_cons in Hp1 as [Hc1 _].
  apply Forall_cons in Hp2 as [Hc2 _].
  congruence.
Qed.

(** What [load_and_prep_image] returns on a valid JPEG. *)
Lemma load_and_prep_image_returns (w : world) (filename : string)
    (raster : list (list (list Z))) (img_shape : Z) (normalize : bool) :
  fs (mach w) !! filename = Some (Jpeg raster) ->
  valid_raster raster = true ->
  (0 < img_shape < 2 ^ 31)%Z ->
  exists t : tensor3,
    fst (load_and_prep_image filename img_shape normalize w) = Ok t /\
    has_shape t (Z.to_nat img_shape) (Z.to_nat img_shape) (channels raster) /\
    values_within 0 (if normalize then 1 else 255) t.
Proof.
  intros Hfile Hvalid [Hpos Hbound].
  destruct (valid_raster_nonempty raster Hvalid) as [Hh Hw].
  destruct (decoded_nonempty raster) as [Eh Ew].
  assert (int32_size img_shape = true) as H32
    by (unfold int32_size; apply andb_true_intro; split;
        [apply Z.leb_le; lia | apply Z.ltb_lt; exact Hbound]).
  assert (refused_size img_shape = false) as Href.
  { unfold refused_size. apply orb_false_intro; apply andb_false_iff.
    - right. apply Z.ltb_ge. lia.
    - left. apply Z.leb_gt. exact Hbound. }
  apply Z.ltb_lt in Hpos.
  unfold load_and_prep_image, bind, tf_io_read_file, tf_image_decode_jpeg,
    tf_image_resize, decode_jpeg_result, resize_result, call, prim.
  cbn [mach log fst snd]. rewrite Hfile, Hvalid. cbn [mach log fst snd].
  rewrite Href, H32, Eh, Ew, Hh, Hw, Hpos. cbn [andb orb fst snd].
  assert (has_shape
            (resize_bilinear (map (map (map inject_Z)) raster)
               (Z.to_nat img_shape) (Z.to_nat img_shape))
            (Z.to_nat img_shape) (Z.to_nat img_shape) (channels raster))
    as Hshape by (rewrite <- decoded_channels; apply resize_bilinear_shape).
  assert (values_within 0 255
            (resize_bilinear (map (map (map inject_Z)) raster)
               (Z.to_nat img_shape) (Z.to_nat img_shape)))
    as Hrange
    by (apply resize_bilinear_range;
        [apply valid_raster_range; exact Hvalid|split; lra]).
  destruct normalize; cbn [ret fst]; eexists; (split; [reflexivity|]); split.
  - apply tensor_div_shape. exact Hshape.
  - apply tensor_div_255_range. exact Hrange.
  - exact Hshape.
  - exact Hrange.
Qed.

(** ** Classification metrics *)


Lemma nat_Q_le (a b : nat) : (a <= b)%nat -> (inject_Z (Z.of_nat a) <= inject_Z (Z.of_nat b))%Q.
Proof. intros H. rewrite <- Zle_Qle. lia. Qed.

Lemma nat_Q_pos (b : nat) : (0 < b)%nat -> (0 < inject_Z (Z.of_nat b))%Q.
Proof. intros H. change 0%Q with (inject_Z 0). rewrite <- Zlt_Qlt. lia. Qed.

Lemma nat_Q_nonneg (a : nat) : (0 <= inject_Z (Z.of_nat a))%Q.
Proof. change 0%Q with (inject_Z 0). rewrite <- Zle_Qle. lia. Qed.

Lemma div_bounds (lo hi x y : Q) :
  (0 < y)%Q -> (lo * y <= x)%Q -> (x <= hi * y)%Q ->
  (lo <= x / y)%Q /\ (x / y <= hi)%Q.
Proof.
  intros Hy H1 H2. split.
  - apply Qle_shift_div_l; assumption.
  - apply Qle_shift_div_r; assumption.
Qed.

Lemma ratio_bounds (a b : nat) :
  (a <= b)%nat -> (0 <= ratio a b)%Q /\ (ratio a b <= 1)%Q.
Proof.
  intros Hab. unfold ratio. destruct b as [|b].
  - assert (a = 0%nat) as -> by lia. split; vm_compute; discriminate.
  - pose proof (nat_Q_le a (S b) Hab). pose proof (nat_Q_nonneg a).
    apply div_bounds; [apply nat_Q_pos; lia| lra | lra].
Qed.

Lemma ratio_diag (n : nat) : (0 < n)%nat -> (ratio n n == 1)%Q.
Proof.
  intros Hn. unfold ratio, Qdiv. apply Qmult_inv_r.
  pose proof (nat_Q_pos n Hn). lra.
Qed.

Lemma safe_ratio_bounds (a b : nat) :
  (a <= b)%nat -> (0 <= safe_ratio a b)%Q /\ (safe_ratio a b <= 1)%Q.
Proof.
  intros Hab. unfold safe_ratio. destruct (b =? 0)%nat.
  - split; lra.
  - apply ratio_bounds. exact Hab.
Qed.

Lemma safe_ratio_diag (n : nat) : (0 < n)%nat -> (safe_ratio n n == 1)%Q.
Proof.
  intros Hn. unfold safe_ratio. destruct (n =? 0)%nat eqn:E.
  - apply Nat.eqb_eq in E. lia.
  - apply ratio_diag. exact Hn.
Qed.

(** Counting positions *)

Lemma count_where_le_length (p : Z -> Z -> bool) (y_true y_pred : list Z) :
  (count_where p y_true y_pred <= length y_true)%nat.
Proof.
  revert y_pred. induction y_true as [|t ts IH]; intros [|q qs]; simpl; try lia.
  specialize (IH qs). destruct (p t q); lia.
Qed.

Lemma count_where_mono (p p' : Z -> Z -> bool) (y_true y_pred : list Z) :
  (forall t q, p t q = true -> p' t q = true) ->
  (count_where p y_true y_pred <= count_where p' y_true y_pred)%nat.
Proof.
  intros Hpp. revert y_pred.
  induction y_true as [|t ts IH]; intros [|q qs]; simpl; try lia.
  specialize (IH qs). destruct (p t q) eqn:E.
  - rewrite (Hpp _ _ E). lia.
  - destruct (p' t q); lia.
Qed.

Lemma count_where_diag (p p' : Z -> Z -> bool) (y : list Z) :
  (forall t, p t t = p' t t) -> count_where p y y = count_where p' y y.
Proof.
  intros Hpp. induction y as [|t ts IH]; simpl; [reflexivity|].
  rewrite Hpp, IH. reflexivity.
Qed.

Lemma count_where_eqb_diag (y : list Z) : count_where Z.eqb y y = length y.
Proof.
  induction y as [|t ts IH]; simpl; [reflexivity|].
  rewrite Z.eqb_refl, IH. reflexivity.
Qed.

Lemma true_sum_pos (l : Z) (y_true y_pred : list Z) :
  length y_true = length y_pred -> In l y_true ->
  (0 < true_sum l y_true y_pred)%nat.
Proof.
  unfold true_sum. revert y_pred.
  induction y_true as [|t ts IH]; intros [|q qs] Hlen Hin; simpl in *;
    try contradiction; try discriminate.
  destruct Hin as [->|Hin].
  - rewrite Z.eqb_refl. lia.
  - specialize (IH qs ltac:(lia) Hin). lia.
Qed.

Lemma tp_le_pred_sum l y_true y_pred :
  (true_positives l y_true y_pred <= pred_sum l y_true y_pred)%nat.
Proof.
  apply count_where_mono. intros t q H. apply andb_prop in H. tauto.
Qed.

Lemma tp_le_true_sum l y_true y_pred :
  (true_positives l y_true y_pred <= true_sum l y_true y_pred)%nat.
Proof.
  apply count_where_mono. intros t q H. apply andb_prop in H. tauto.
Qed.

Lemma tp_diag l y : true_positives l y y = true_sum l y y.
Proof.
  apply count_where_diag. intros t. destruct (t =? l)%Z; reflexivity.
Qed.

Lemma pred_sum_diag l y : pred_sum l y y = true_sum l y y.
Proof. apply count_where_diag. reflexivity. Qed.

(** Per-label metrics *)

Lemma precision_of_bounds l y_true y_pred :
  (0 <= precision_of l y_true y_pred)%Q /\ (precision_of l y_true y_pred <= 1)%Q.
Proof. apply safe_ratio_bounds, tp_le_pred_sum. Qed.

Lemma recall_of_bounds l y_true y_pred :
  (0 <= recall_of l y_true y_pred)%Q /\ (recall_of l y_true y_pred <= 1)%Q.
Proof. apply safe_ratio_bounds, tp_le_true_sum. Qed.

Lemma f1_of_bounds l y_true y_pred :
  (0 <= f1_of l y_true y_pred)%Q /\ (f1_of l y_true y_pred <= 1)%Q.
Proof.
  unfold f1_of.
  destruct (precision_of_bounds l y_true y_pred) as [Hp0 Hp1].
  destruct (recall_of_bounds l y_true y_pred) as [Hr0 Hr1].
  set (p := precision_of l y_true y_pred) in *.
  set (r := recall_of l y_true y_pred) in *.
  destruct (Qeq_bool (p + r) 0) eqn:E.
  - split; lra.
  - apply Qeq_bool_neq in E.
    assert (0 < p + r)%Q as Hpos by (destruct (Qlt_le_dec 0 (p + r)); [assumption|exfalso; apply E; lra]).
    apply div_bounds; [exact Hpos| nra | nra].
Qed.

Lemma precision_of_diag l y : In l y -> (precision_of l y y == 1)%Q.
Proof.
  intros Hin. unfold precision_of. rewrite tp_diag, pred_sum_diag.
  apply safe_ratio_diag, true_sum_pos; auto.
Qed.

Lemma recall_of_diag l y : In l y -> (recall_of l y y == 1)%Q.
Proof.
  intros Hin. unfold recall_of. rewrite tp_diag.
  apply safe_ratio_diag, true_sum_pos; auto.
Qed.

Lemma f1_of_diag l y : In l y -> (f1_of l y y == 1)%Q.
Proof.
  intros Hin. unfold f1_of.
  pose proof (precision_of_diag l y Hin) as Hp.
  pose proof (recall_of_diag l y Hin) as Hr.
  set (p := precision_of l y y) in *. set (r := recall_of l y y) in *.
  destruct (Qeq_bool (p + r) 0) eqn:E.
  - apply Qeq_bool_iff in E. lra.
  - rewrite Hp, Hr. reflexivity.
Qed.

(** Weighted averages *)

Lemma weighted_sum_bounds (lo hi : Q) (f : Z -> Q) (g : Z -> nat) (ls : list Z) :
  (forall l, In l ls -> (lo <= f l)%Q /\ (f l <= hi)%Q) ->
  (lo * inject_Z (Z.of_nat (foldr Nat.add 0%nat (map g ls)))
   <= Qsum (zip_with (fun v w => (inject_Z (Z.of_nat w) * v)%Q) (map f ls) (map g ls)))%Q /\
  (Qsum (zip_with (fun v w => (inject_Z (Z.of_nat w) * v)%Q) (map f ls) (map g ls))
   <= hi * inject_Z (Z.of_nat (foldr Nat.add 0%nat (map g ls))))%Q.
Proof.
  induction ls as [|a ls IH]; intros Hf; simpl.
  - change (inject_Z (Z.of_nat 0)) with 0%Q. split; lra.
  - destruct IH as [IH1 IH2]; [intros l Hl; apply Hf; right; exact Hl|].
    destruct (Hf a (or_introl eq_refl)) as [Ha1 Ha2].
    pose proof (nat_Q_nonneg (g a)) as Hg.
    rewrite Nat2Z.inj_add, inject_Z_plus.
    split; nra.
Qed.

Lemma weighted_average_bounds (lo hi : Q) (f : Z -> Q) (g : Z -> nat) (ls : list Z) :
  (forall l, In l ls -> (lo <= f l)%Q /\ (f l <= hi)%Q) ->
  ((lo <= 0)%Q /\ (0 <= hi)%Q) \/ (0 < foldr Nat.add 0%nat (map g ls))%nat ->
  (lo <= weighted_average (map f ls) (map g ls))%Q /\
  (weighted_average (map f ls) (map g ls) <= hi)%Q.
Proof.
  intros Hf Hcase. unfold weighted_average.
  destruct (foldr Nat.add 0%nat (map g ls) =? 0)%nat eqn:E.
  - apply Nat.eqb_eq in E. destruct Hcase as [H0|Hpos]; [exact H0|lia].
  - apply Nat.eqb_neq in E.
    destruct (weighted_sum_bounds lo hi f g ls Hf) as [H1 H2].
    apply div_bounds; [apply nat_Q_pos; lia|exact H1|exact H2].
Qed.

Lemma total_ge_member (g : Z -> nat) (ls : list Z) (x : Z) :
  In x ls -> (g x <= foldr Nat.add 0%nat (map g ls))%nat.
Proof.
  induction ls as [|a ls IH]; simpl; [contradiction|].
  intros [->|Hin]; [lia|]. specialize (IH Hin). lia.
Qed.

Lemma In_unique_labels (l : Z) (y_true y_pred : list Z) :
  In l (unique_labels y_true y_pred) <-> In l (y_true ++ y_pred).
Proof.
  unfold unique_labels. rewrite <- !list_elem_of_In.
  rewrite merge_sort_Permutation. apply elem_of_remove_dups.
Qed.

Lemma same_length_true (y_true y_pred : list Z) :
  same_length y_true y_pred = true <-> length y_true = length y_pred.
Proof. unfold same_length. apply Nat.eqb_eq. Qed.

Lemma int64_label_true (l : Z) :
  int64_label l = true <-> (- 2 ^ 63 <= l < 2 ^ 63)%Z.
Proof.
  unfold int64_label. rewrite andb_true_iff, Z.leb_le, Z.ltb_lt. reflexivity.
Qed.

Lemma valid_targets_true (y_true y_pred : list Z) :
  valid_targets y_true y_pred = true <->
  length y_true = length y_pred /\ y_true <> [] /\
  Forall (fun l => (- 2 ^ 63 <= l < 2 ^ 63)%Z) y_true /\
  Forall (fun l => (- 2 ^ 63 <= l < 2 ^ 63)%Z) y_pred.
Proof.
  assert (forall ys : list Z,
            forallb int64_label ys = true <->
            Forall (fun l => (- 2 ^ 63 <= l < 2 ^ 63)%Z) ys) as Hall.
  { intros ys. rewrite forallb_forall, List.Forall_forall.
    split; intros H l Hl; apply int64_label_true, H, Hl. }
  assert ((0 <? length y_true)%nat = true <-> y_true <> []) as Hne.
  { rewrite Nat.ltb_lt.
    destruct y_true; simpl; split; intros H;
      first [lia | congruence | discriminate]. }
  unfold valid_targets.
  rewrite !andb_true_iff, same_length_true, Hne, !Hall. tauto.
Qed.

(** The dictionary [calculate_results] builds on arrays the metrics
    accept. *)
Lemma calculate_results_returns (y_true y_pred : list Z) (w : world) :
  valid_targets y_true y_pred = true ->
  fst (calculate_results y_true y_pred w) =
  Ok (<["accuracy" :=
          (ratio (count_where Z.eqb y_true y_pred) (length y_true) * 100)%Q]>
      (<["precision" :=
           weighted_average
             (map (fun l => precision_of l y_true y_pred)
                  (unique_labels y_true y_pred))
             (map (fun l => true_sum l y_true y_pred)
                  (unique_labels y_true y_pred))]>
       (<["recall" :=
            weighted_average
              (map (fun l => recall_of l y_true y_pred)
                   (unique_labels y_true y_pred))
              (map (fun l => true_sum l y_true y_pred)
                   (unique_labels y_true y_pred))]>
        (<["f1" :=
             weighted_average
               (map (fun l => f1_of l y_true y_pred)
                    (unique_labels y_true y_pred))
               (map (fun l => true_sum l y_true y_pred)
                    (unique_labels y_true y_pred))]> ∅)))).
Proof.
  intros Hvalid.
  unfold calculate_results, accuracy_score,
    precision_recall_fscore_support_weighted, bind, call, prim, emit, ret.
  rewrite Hvalid. cbn [andb fst snd].
  do 2 destruct (existsb _ _); reflexivity.
Qed.

(** Arrays the metrics refuse end [calculate_results] in the first
    metric's [ValueError]. *)
Lemma calculate_results_refused (y_true y_pred : list Z) (w : world) :
  valid_targets y_true y_pred = false ->
  fst (calculate_results y_true y_pred w) = Fault ValueError.
Proof.
  intros Hvalid.
  unfold calculate_results, accuracy_score, bind, call, prim.
  rewrite Hvalid. reflexivity.
Qed.

Lemma support_pos (y : list Z) :
  y <> [] ->
  (0 < foldr Nat.add 0%nat
         (map (fun l => true_sum l y y) (unique_labels y y)))%nat.
Proof.
  intros Hy. destruct y as [|x y']; [congruence|].
  set (y := x :: y').
  assert (In x y) as Hx by (left; reflexivity).
  assert (In x (unique_labels y y)) as Hl
    by (apply In_unique_labels, in_or_app; left; exact Hx).
  pose proof (total_ge_member (fun l => true_sum l y y) _ x Hl) as Hge.
  pose proof (true_sum_pos x y y eq_refl Hx). simpl in Hge. lia.
Qed.

Lemma In_unique_labels_diag (l : Z) (y : list Z) :
  In l (unique_labels y y) -> In l y.
Proof.
  intros H. apply In_unique_labels, in_app_or in H. tauto.
Qed.

Lemma weighted_average_one (f : Z -> Q) (y : list Z) :
  y <> [] -> (forall l, In l y -> (f l == 1)%Q) ->
  (weighted_average (map f (unique_labels y y))
     (map (fun l => true_sum l y y) (unique_labels y y)) == 1)%Q.
Proof.
  intros Hy Hf.
  destruct (weighted_average_bounds 1 1 f (fun l => true_sum l y y)
              (unique_labels y y)) as [H1 H2].
  - intros l Hl. apply In_unique_labels_diag in Hl. rewrite (Hf l Hl).
    split; lra.
  - right. apply support_pos. exact Hy.
  - lra.
Qed.

(** * The claims *)

(** ** [load_and_prep_image] *)

(** C5, as the specification states it, fails: a grayscale JPEG is a
    valid JPEG, and it loads as a tensor of shape (224, 224, 1), not
    (224, 224, 3). *)
Lemma grayscale_jpeg_loads_with_one_channel :
  ~ every_jpeg_loads_with_three_channels.
Proof.
  intros Hclaim.
  set (w := sample_world (<["gray.jpg" := gray_jpeg]> ∅)).
  assert (fs (mach w) !! "gray.jpg" = Some (Jpeg [[[128%Z]]])) as Hfile
    by apply lookup_insert_eq.
  destruct (Hclaim w "gray.jpg" _ Hfile eq_refl) as (t & Ht & Hthree & _).
  destruct (load_and_prep_image_returns w "gray.jpg" _ default_img_shape
              default_normalize Hfile eq_refl (conj eq_refl eq_refl))
    as (t' & Ht' & Hone & _).
  rewrite Ht in Ht'. injection Ht' as <-.
  change (Z.to_nat default_img_shape) with 224%nat in Hone.
  assert (3 = channels [[[128%Z]]])%nat as Habs
    by (apply (has_shape_channels_unique t 224 224); [lia|lia|assumption..]).
  discriminate Habs.
Qed.

(** C5, amended: for every valid JPEG file, [load_and_prep_image] with
    the default [img_shape=224] and [normalize=True] returns a tensor of
    shape (224, 224, c), where c is the number of channels of the JPEG
    (1 for a grayscale image, 3 for a colour image), and all its values
    lie in the interval [0, 1]. *)
Theorem load_and_prep_image_default_shape_and_range
    (w : world) (filename : string) (raster : list (list (list Z))) :
  fs (mach w) !! filename = Some (Jpeg raster) ->
  valid_raster raster = true ->
  exists t : tensor3,
    fst (load_and_prep_image filename default_img_shape default_normalize w)
      = Ok t /\
    has_shape t 224 224 (channels raster) /\
    (channels raster = 1%nat \/ channels raster = 3%nat) /\
    values_within 0 1 t.
Proof.
  intros Hfile Hvalid.
  destruct (load_and_prep_image_returns w filename raster default_img_shape
              default_normalize Hfile Hvalid (conj eq_refl eq_refl))
    as (t & Ht & Hshape & Hrange).
  exists t. split; [exact Ht|]. split; [exact Hshape|]. split.
  - apply valid_raster_channels. exact Hvalid.
  - exact Hrange.
Qed.

Lemma load_and_prep_image_default_shape_and_range_witness :
  exists t : tensor3,
    fst (load_and_prep_image "photo.jpg" default_img_shape default_normalize
           (sample_world (<["photo.jpg" := colour_jpeg]> ∅)))
      = Ok t /\
    has_shape t 224 224 3 /\
    (3 = 1 \/ 3 = 3)%nat /\
    values_within 0 1 t.
Proof.
  apply (load_and_prep_image_default_shape_and_range
           (sample_world (<["photo.jpg" := colour_jpeg]> ∅)) "photo.jpg"
           [[[0; 0; 0]; [255; 255; 255]]; [[10; 20; 30]; [40; 50; 60]]]%Z).
  - apply lookup_insert_eq.
  - reflexivity.
Defined.

(** ** [calculate_results] *)

(** C1: on identical non-empty label arrays, [calculate_results] returns
    the dictionary with accuracy 100, precision 1, recall 1 and f1 1.
    (The labels are 64-bit integers, as the elements of the library's
    integer arrays are; the metrics refuse a label beyond that range.) *)
Theorem calculate_results_identical (y : list Z) (w : world) :
  y <> [] ->
  Forall (fun l => (- 2 ^ 63 <= l < 2 ^ 63)%Z) y ->
  exists a p r f : Q,
    fst (calculate_results y y w) =
      Ok (<["accuracy" := a]> (<["precision" := p]>
            (<["recall" := r]> (<["f1" := f]> ∅)))) /\
    (a == 100)%Q /\ (p == 1)%Q /\ (r == 1)%Q /\ (f == 1)%Q.
Proof.
  intros Hy Hint. do 4 eexists.
  split; [apply calculate_results_returns, valid_targets_true; auto|].
  split; [|split; [|split]].
  - rewrite count_where_eqb_diag, ratio_diag; [reflexivity|].
    destruct y; [congruence|simpl; lia].
  - apply (weighted_average_one (fun l => precision_of l y y)); [exact Hy|].
    intros l Hl. apply precision_of_diag. exact Hl.
  - apply (weighted_average_one (fun l => recall_of l y y)); [exact Hy|].
    intros l Hl. apply recall_of_diag. exact Hl.
  - apply (weighted_average_one (fun l => f1_of l y y)); [exact Hy|].
    intros l Hl. apply f1_of_diag. exact Hl.
Qed.

Lemma calculate_results_identical_witness :
  exists a p r f : Q,
    fst (calculate_results [1; 2; 2; 0]%Z [1; 2; 2; 0]%Z (sample_world ∅)) =
      Ok (<["accuracy" := a]> (<["precision" := p]>
            (<["recall" := r]> (<["f1" := f]> ∅)))) /\
    (a == 100)%Q /\ (p == 1)%Q /\ (r == 1)%Q /\ (f == 1)%Q.
Proof.
  apply (calculate_results_identical [1; 2; 2; 0]%Z (sample_world ∅)).
  - discriminate.
  - repeat constructor; lia.
Defined.

(** The library calls of [calculate_results] on arrays the metrics
    accept. *)
Lemma accuracy_score_returns (y_true y_pred : list Z) (w : world) :
  valid_targets y_true y_pred = true ->
  fst (accuracy_score y_true y_pred w) =
  Ok (ratio (count_where Z.eqb y_true y_pred) (length y_true)).
Proof.
  intros Hvalid.
  unfold accuracy_score, call, prim. rewrite Hvalid. reflexivity.
Qed.

Lemma precision_recall_fscore_support_weighted_returns
    (y_true y_pred : list Z) (w : world) :
  valid_targets y_true y_pred = true ->
  fst (precision_recall_fscore_support_weighted y_true y_pred w) =
  Ok (weighted_average
        (map (fun l => precision_of l y_true y_pred)
             (unique_labels y_true y_pred))
        (map (fun l => true_sum l y_true y_pred)
             (unique_labels y_true y_pred)),
      weighted_average
        (map (fun l => recall_of l y_true y_pred)
             (unique_labels y_true y_pred))
        (map (fun l => true_sum l y_true y_pred)
             (unique_labels y_true y_pred)),
      weighted_average
        (map (fun l => f1_of l y_true y_pred)
             (unique_labels y_true y_pred))
        (map (fun l => true_sum l y_true y_pred)
             (unique_labels y_true y_pred)),
      None).
Proof.
  intros Hvalid.
  unfold precision_recall_fscore_support_weighted, bind, call, prim, emit, ret.
  rewrite Hvalid. cbn [andb fst snd].
  do 2 destruct (existsb _ _); reflexivity.
Qed.

(** C9: whatever [calculate_results] returns is a dictionary with
    exactly the four keys "accuracy", "precision", "recall" and "f1"; the
    accuracy is the library's score multiplied by 100, a percentage in
    [0, 100], while precision, recall and f1 are the library's values
    unscaled, fractions in [0, 1]. *)
Theorem calculate_results_keys_and_ranges
    (y_true y_pred : list Z) (w : world) (d : gmap string Q) :
  fst (calculate_results y_true y_pred w) = Ok d ->
  exists score a p r f : Q,
    dom d = ({["accuracy"; "precision"; "recall"; "f1"]} : gset string) /\
    d !! "accuracy" = Some a /\ d !! "precision" = Some p /\
    d !! "recall" = Some r /\ d !! "f1" = Some f /\
    fst (accuracy_score y_true y_pred w) = Ok score /\
    a = (score * 100)%Q /\
    fst (precision_recall_fscore_support_weighted y_true y_pred w)
      = Ok (p, r, f, None) /\
    ((0 <= a)%Q /\ (a <= 100)%Q) /\
    ((0 <= p)%Q /\ (p <= 1)%Q) /\
    ((0 <= r)%Q /\ (r <= 1)%Q) /\
    ((0 <= f)%Q /\ (f <= 1)%Q).
Proof.
  intros Hret.
  destruct (valid_targets y_true y_pred) eqn:Hlen;
    [|rewrite (calculate_results_refused _ _ _ Hlen) in Hret; discriminate].
  rewrite (calculate_results_returns _ _ _ Hlen) in Hret.
  injection Hret as <-. do 5 eexists.
  split; [rewrite !dom_insert_L, dom_empty_L; set_solver|].
  split; [apply lookup_insert_eq|].
  split; [rewrite lookup_insert_ne by done; apply lookup_insert_eq|].
  split; [rewrite !lookup_insert_ne by done; apply lookup_insert_eq|].
  split; [rewrite !lookup_insert_ne by done; apply lookup_insert_eq|].
  split; [apply accuracy_score_returns; exact Hlen|].
  split; [reflexivity|].
  split; [apply precision_recall_fscore_support_weighted_returns; exact Hlen|].
  split; [|split; [|split]].
  - destruct (ratio_bounds (count_where Z.eqb y_true y_pred) (length y_true)
                (count_where_le_length _ _ _)) as [H0 H1].
    split; lra.
  - apply (weighted_average_bounds 0 1 (fun l => precision_of l y_true y_pred)).
    + intros l _. apply precision_of_bounds.
    + left. split; lra.
  - apply (weighted_average_bounds 0 1 (fun l => recall_of l y_true y_pred)).
    + intros l _. apply recall_of_bounds.
    + left. split; lra.
  - apply (weighted_average_bounds 0 1 (fun l => f1_of l y_true y_pred)).
    + intros l _. apply f1_of_bounds.
    + left. split; lra.
Qed.

Lemma calculate_results_keys_and_ranges_witness :
  exists score a p r f : Q,
    dom (sample_results [1; 2; 2; 3]%Z [1; 2; 3; 3]%Z)
      = ({["accuracy"; "precision"; "recall"; "f1"]} : gset string) /\
    sample_results [1; 2; 2; 3]%Z [1; 2; 3; 3]%Z !! "accuracy" = Some a /\
    sample_results [1; 2; 2; 3]%Z [1; 2; 3; 3]%Z !! "precision" = Some p /\
    sample_results [1; 2; 2; 3]%Z [1; 2; 3; 3]%Z !! "recall" = Some r /\
    sample_results [1; 2; 2; 3]%Z [1; 2; 3; 3]%Z !! "f1" = Some f /\
    fst (accuracy_score [1; 2; 2; 3]%Z [1; 2; 3; 3]%Z (sample_world ∅))
      = Ok score /\
    a = (score * 100)%Q /\
    fst (precision_recall_fscore_support_weighted [1; 2; 2; 3]%Z
           [1; 2; 3; 3]%Z (sample_world ∅))
      = Ok (p, r, f, None) /\
    ((0 <= a)%Q /\ (a <= 100)%Q) /\
    ((0 <= p)%Q /\ (p <= 1)%Q) /\
    ((0 <= r)%Q /\ (r <= 1)%Q) /\
    ((0 <= f)%Q /\ (f <= 1)%Q).
Proof.
  apply (calculate_results_keys_and_ranges [1; 2; 2; 3]%Z [1; 2; 3; 3]%Z
           (sample_world ∅)).
  reflexivity.
Defined.

(** ** [unzip_data] *)

Lemma closed_after_filter (h : nat) (hs : list nat) :
  existsb (Nat.eqb h) (List.filter (fun h' => negb (h' =? h)%nat) hs) = false.
Proof.
  induction hs as [|h' hs IH]; simpl; [reflexivity|].
  destruct (h' =? h)%nat eqn:E; simpl; [exact IH|].
  rewrite Nat.eqb_sym, E. exact IH.
Qed.

(** C4: [unzip_data] opens the zip-file handle and closes it within the
    call when [extractall] returns; when [extractall] raises, whatever
    the fault, that fault ends the call, the close is not executed and
    the handle stays open. *)
Theorem unzip_data_closes_only_on_success
    (filename : string) (w : world) (ms : list (string * option file)) :
  fs (mach w) !! filename = Some (Zip ms) ->
  match fst (extraction (mach w) ms (fs (mach w))) with
  | Ok _ =>
      fst (unzip_data filename w) = Ok tt /\
      added (log w) (log (snd (unzip_data filename w))) =
        [Call (Lib "zipfile.ZipFile") Returned;
         Call (Lib "ZipFile.extractall") Returned;
         Call (Lib "ZipFile.close") Returned] /\
      is_open (next_handle (mach w)) (mach (snd (unzip_data filename w)))
        = false
  | Fault e =>
      fst (unzip_data filename w) = Fault e /\
      added (log w) (log (snd (unzip_data filename w))) =
        [Call (Lib "zipfile.ZipFile") Returned;
         Call (Lib "ZipFile.extractall") (Raised e)] /\
      is_open (next_handle (mach w)) (mach (snd (unzip_data filename w)))
        = true
  end.
Proof.
  intros Hfile.
  unfold unzip_data, bind, ZipFile, zip_extractall, zip_close, prim, is_open.
  cbn [mach log fst snd]. rewrite Hfile.
  cbn [mach log fst snd handle members open_handles next_handle fs existsb
       with_handles with_files extraction].
  rewrite Nat.eqb_refl. cbn [orb].
  destruct (extraction (mach w) ms (fs (mach w))) as [[[]|e] files];
    cbn [mach log fst snd status_of open_handles existsb
         with_handles with_files].
  - split; [reflexivity|]. split.
    + rewrite <- !app_assoc. apply added_app.
    + cbn [List.filter]. rewrite Nat.eqb_refl. cbn [negb].
      apply closed_after_filter.
  - split; [reflexivity|]. split.
    + rewrite <- !app_assoc. apply added_app.
    + rewrite Nat.eqb_refl. reflexivity.
Qed.

Lemma unzip_data_closes_only_on_success_witness :
  fst (unzip_data "data.zip"
         (sample_world
            (<["data.zip" := Zip [("a.jpg", Some gray_jpeg); ("b.jpg", None)]]> ∅)))
    = Fault BadZipFile /\
  added []
    (log (snd (unzip_data "data.zip"
                 (sample_world
                    (<["data.zip" :=
                         Zip [("a.jpg", Some gray_jpeg); ("b.jpg", None)]]> ∅))))) =
    [Call (Lib "zipfile.ZipFile") Returned;
     Call (Lib "ZipFile.extractall") (Raised BadZipFile)] /\
  is_open 0
    (mach (snd (unzip_data "data.zip"
                  (sample_world
                     (<["data.zip" :=
                          Zip [("a.jpg", Some gray_jpeg); ("b.jpg", None)]]> ∅)))))
    = true.
Proof.
  apply (unzip_data_closes_only_on_success "data.zip"
           (sample_world
              (<["data.zip" := Zip [("a.jpg", Some gray_jpeg); ("b.jpg", None)]]> ∅))
           [("a.jpg", Some gray_jpeg); ("b.jpg", None)]).
  apply lookup_insert_eq.
Defined.

(** The success path: the handle is opened, the members are extracted
    and the handle is closed. *)
Example unzip_data_closes_on_success :
  let w := sample_world
             (<["data.zip" := Zip [("a.jpg", Some gray_jpeg)]]> ∅) in
  fst (unzip_data "data.zip" w) = Ok tt /\
  is_open 0 (mach (snd (unzip_data "data.zip" w))) = false /\
  fs (mach (snd (unzip_data "data.zip" w))) !! "a.jpg" = Some gray_jpeg.
Proof. vm_compute. repeat split; reflexivity. Qed.

(** A fault that is not a damaged member: an archive that holds a
    member named like a directory another member needs.  The fault is
    the extraction's, and the handle stays open all the same. *)
Example unzip_data_stays_open_on_a_name_clash :
  let w := {| mach := clashing_machine; log := [] |} in
  fst (unzip_data "data.zip" w) = Fault NotADirectoryError /\
  is_open 0 (mach (snd (unzip_data "data.zip" w))) = true.
Proof. vm_compute. split; reflexivity. Qed.

(** ** Running a computation step by step *)

Lemma bind_run {A B} (m : M A) (k : A -> M B) (w : world) :
  bind m k w =
  match m w with
  | (Ok a, w') => k a w'
  | (Fault e, w') => (Fault e, w')
  end.
Proof. reflexivity. Qed.

Lemma call_run {A} (o : op) (r : outcome A) (w : world) :
  call o r w = (r, record (Call o (status_of r)) w).
Proof. reflexivity. Qed.

Lemma emit_run (x : output) (w : world) :
  emit x w = (Ok tt, record (Call (Out x) Returned) w).
Proof. reflexivity. Qed.

Lemma dict_getitem_run {V} (d : gmap string V) (key : string) (v : V)
    (w : world) :
  d !! key = Some v ->
  dict_getitem d key w =
  (Ok v, record (Call (Builtin "dict.__getitem__") Returned) w).
Proof. intros H. unfold dict_getitem. rewrite call_run, H. reflexivity. Qed.

Lemma plt_ylim_run (w : world) :
  plt_ylim w = (Ok (autoscale (mach w) (outputs (log w))),
                record (Call (Lib "plt.ylim") Returned) w).
Proof. reflexivity. Qed.

Lemma plt_plot_run_indices (ys : list Q) (label : string) (w : world) :
  plt_plot None ys label w =
  (Ok tt, record (Call (Out (Plot None ys label)) Returned) w).
Proof. reflexivity. Qed.

Lemma plt_plot_run_pair (a b : Z) (c d : Q) (label : string) (w : world) :
  plt_plot (Some [a; b]) [c; d] label w =
  (Ok tt, record (Call (Out (Plot (Some [a; b]) [c; d] label)) Returned) w).
Proof. reflexivity. Qed.

(** ** [calculate_results] on arrays of different lengths *)

(** On arrays of different lengths the first library call faults and
    [calculate_results] returns nothing. *)
Lemma calculate_results_length_mismatch (y_true y_pred : list Z) (w : world) :
  length y_true <> length y_pred ->
  fst (calculate_results y_true y_pred w) = Fault ValueError.
Proof.
  intros Hlen. apply calculate_results_refused.
  destruct (valid_targets y_true y_pred) eqn:E; [|reflexivity].
  apply valid_targets_true in E. tauto.
Qed.

(** ** [compare_history] *)

(** C6: [compare_history] merges the two histories by concatenation:
    for each of accuracy, loss, val_accuracy and val_loss, the sequence
    it plots is the original history's values followed by the new
    history's values, so its length is the sum of the two lengths. *)
Theorem compare_history_plots_concatenation
    (original_history new_history : History) (initial_epochs : Z) (w : world)
    (acc loss val_acc val_loss new_acc new_loss new_val_acc new_val_loss
       : list Q) :
  history original_history !! "accuracy" = Some acc ->
  history original_history !! "loss" = Some loss ->
  history original_history !! "val_accuracy" = Some val_acc ->
  history original_history !! "val_loss" = Some val_loss ->
  history new_history !! "accuracy" = Some new_acc ->
  history new_history !! "loss" = Some new_loss ->
  history new_history !! "val_accuracy" = Some new_val_acc ->
  history new_history !! "val_loss" = Some new_val_loss ->
  exists lim1 lim2 : Q * Q,
    fst (compare_history original_history new_history initial_epochs w)
      = Ok tt /\
    outputs
      (added (log w)
         (log (snd (compare_history original_history new_history
                      initial_epochs w)))) =
      [Figure (Some (8, 8)%Z);
       Subplot 2 1 1;
       Plot None (acc ++ new_acc) "Training Accuracy";
       Plot None (val_acc ++ new_val_acc) "Validation Accuracy";
       Plot (Some [initial_epochs - 1; initial_epochs - 1]%Z)
         [fst lim1; snd lim1] "Start Fine Tuning";
       Legend (Some "lower right");
       Title "Training and Validation Accuracy" None;
       Subplot 2 1 2;
       Plot None (loss ++ new_loss) "Training Loss";
       Plot None (val_loss ++ new_val_loss) "Validation Loss";
       Plot (Some [initial_epochs - 1; initial_epochs - 1]%Z)
         [fst lim2; snd lim2] "Start Fine Tuning";
       Legend (Some "upper right");
       Title "Training and Validation Loss" None;
       Xlabel "epoch" None;
       Show] /\
    length (acc ++ new_acc) = (length acc + length new_acc)%nat /\
    length (loss ++ new_loss) = (length loss + length new_loss)%nat /\
    length (val_acc ++ new_val_acc)
      = (length val_acc + length new_val_acc)%nat /\
    length (val_loss ++ new_val_loss)
      = (length val_loss + length new_val_loss)%nat.
Proof.
  intros H1 H2 H3 H4 H5 H6 H7 H8.
  unfold compare_history.
  repeat (rewrite bind_run;
          first [ erewrite dict_getitem_run by eassumption
                | rewrite plt_ylim_run
                | rewrite plt_plot_run_indices
                | rewrite plt_plot_run_pair
                | unfold plt_figure, plt_subplot, plt_legend, plt_title,
                    plt_xlabel; rewrite emit_run ];
          cbv beta iota).
  unfold plt_show. rewrite emit_run.
  do 2 eexists. split; [reflexivity|]. split.
  - cbn [snd record log mach].
    rewrite <- !app_assoc. rewrite added_app. reflexivity.
  - rewrite !length_app. repeat split; reflexivity.
Qed.

Lemma compare_history_plots_concatenation_witness :
  exists lim1 lim2 : Q * Q,
    fst (compare_history first_training fine_tuning default_initial_epochs
           (sample_world ∅)) = Ok tt /\
    outputs
      (added (log (sample_world ∅))
         (log (snd (compare_history first_training fine_tuning
                      default_initial_epochs (sample_world ∅))))) =
      [Figure (Some (8, 8)%Z);
       Subplot 2 1 1;
       Plot None (epochs3 (5 # 10) (6 # 10) (7 # 10)
                  ++ epochs2 (8 # 10) (9 # 10)) "Training Accuracy";
       Plot None (epochs3 (4 # 10) (5 # 10) (6 # 10)
                  ++ epochs2 (7 # 10) (8 # 10)) "Validation Accuracy";
       Plot (Some [default_initial_epochs - 1; default_initial_epochs - 1]%Z)
         [fst lim1; snd lim1] "Start Fine Tuning";
       Legend (Some "lower right");
       Title "Training and Validation Accuracy" None;
       Subplot 2 1 2;
       Plot None (epochs3 (9 # 10) (7 # 10) (6 # 10)
                  ++ epochs2 (5 # 10) (4 # 10)) "Training Loss";
       Plot None (epochs3 1 (8 # 10) (7 # 10)
                  ++ epochs2 (6 # 10) (5 # 10)) "Validation Loss";
       Plot (Some [default_initial_epochs - 1; default_initial_epochs - 1]%Z)
         [fst lim2; snd lim2] "Start Fine Tuning";
       Legend (Some "upper right");
       Title "Training and Validation Loss" None;
       Xlabel "epoch" None;
       Show] /\
    length (epochs3 (5 # 10) (6 # 10) (7 # 10) ++ epochs2 (8 # 10) (9 # 10))
      = (3 + 2)%nat /\
    length (epochs3 (9 # 10) (7 # 10) (6 # 10) ++ epochs2 (5 # 10) (4 # 10))
      = (3 + 2)%nat /\
    length (epochs3 (4 # 10) (5 # 10) (6 # 10) ++ epochs2 (7 # 10) (8 # 10))
      = (3 + 2)%nat /\
    length (epochs3 1 (8 # 10) (7 # 10) ++ epochs2 (6 # 10) (5 # 10))
      = (3 + 2)%nat.
Proof.
  apply (compare_history_plots_concatenation first_training fine_tuning
           default_initial_epochs (sample_world ∅));
    vm_compute; reflexivity.
Defined.

(** ** [make_confusion_matrix] *)

Lemma np_divide_run (a : list (list Q)) (col : list (list nat)) (w : world) :
  exists q,
    np_divide a col w =
    (Ok q,
     record (Call (Lib "numpy.divide") Returned)
       (if existsb (fun c => (hd 0%nat c =? 0)%nat) col
        then record
               (Call (Out (Warn "RuntimeWarning: invalid value encountered in divide"))
                  Returned) w
        else w)).
Proof.
  unfold np_divide. rewrite bind_run.
  destruct (existsb _ col); eexists; reflexivity.
Qed.

Lemma log_record (en : entry) (w : world) : log (record en w) = log w ++ [en].
Proof. reflexivity. Qed.

Lemma mach_record (en : entry) (w : world) : mach (record en w) = mach w.
Proof. reflexivity. Qed.

(** Run [make_confusion_matrix] up to the decision on [savefig]. *)
Ltac run_confusion_matrix :=
  rewrite bind_run; unfold confusion_matrix; rewrite call_run;
  destruct (valid_targets _ _); cbv beta iota; cbn [status_of];
  [ rewrite bind_run;
    match goal with
    | |- context [np_divide ?a ?col ?w] =>
        let q := fresh "cm_norm" in
        let Hq := fresh "Hq" in
        destruct (np_divide_run a col w) as [q Hq]; rewrite Hq; clear Hq
    end;
    cbv beta iota;
    rewrite bind_run; unfold plot_confusion_matrix; rewrite call_run;
    cbn [orb negb];
    match goal with
    | |- context [match ?c with Some _ => _ | None => _ end] =>
        destruct c as [?names|];
        [ match goal with
          | |- context [if ?b then _ else _] => destruct b
          end | ]
    end;
    cbv beta iota; cbn [status_of];
    repeat (rewrite bind_run;
            unfold plt_xlabel, plt_ylabel, plt_title, plt_show;
            rewrite emit_run; cbv beta iota)
  | ].

Ltac tidy_log :=
  unfold fig_savefig, prim, ret;
  cbn [fst snd mach log fs];
  rewrite ?log_record, ?mach_record;
  repeat match goal with
         | |- context [existsb ?f ?l] => destruct (existsb f l)
         end;
  rewrite ?log_record, ?mach_record;
  rewrite <- ?app_assoc, ?added_app.

(** C7: a call of [make_confusion_matrix] that returns writes the file
    "confusion_matrix.png" if and only if [savefig] is true; with the
    default [savefig=False] no call produces file output. *)
Theorem make_confusion_matrix_writes_iff_savefig
    (y_true y_pred : list Z) (classes : option (list string))
    (figsize : Z * Z) (text_size : Z) (norm savefig : bool) (w : world) :
  (fst (make_confusion_matrix y_true y_pred classes figsize text_size norm
          savefig w) = Ok tt ->
   (writes_file "confusion_matrix.png" w
      (snd (make_confusion_matrix y_true y_pred classes figsize text_size
              norm savefig w))
    <-> savefig = true)) /\
  no_file_output w
    (snd (make_confusion_matrix y_true y_pred classes figsize text_size norm
            default_savefig w)).
Proof.
  unfold writes_file, no_file_output, default_savefig,
    make_confusion_matrix. split.
  - run_confusion_matrix; destruct savefig; tidy_log; intros Hret;
      try discriminate Hret.
    all: try (split; [intros _; reflexivity|intros _;
                      split; [simpl; tauto|eexists; reflexivity]]).
    all: split; [|discriminate]; intros [Hin _]; simpl in Hin;
      repeat (destruct Hin as [Hin|Hin]; [discriminate Hin|]); contradiction.
  - run_confusion_matrix; tidy_log; (split; [reflexivity|]);
      intros fname Hin; simpl in Hin;
      repeat (destruct Hin as [Hin|Hin]; [discriminate Hin|]); contradiction.
Qed.

Lemma make_confusion_matrix_writes_iff_savefig_witness :
  writes_file "confusion_matrix.png" (sample_world ∅)
    (snd (make_confusion_matrix [0; 1; 1]%Z [0; 1; 0]%Z None default_figsize
            default_text_size default_norm true (sample_world ∅)))
  <-> true = true.
Proof.
  apply (proj1 (make_confusion_matrix_writes_iff_savefig [0; 1; 1]%Z
                  [0; 1; 0]%Z None default_figsize default_text_size
                  default_norm true (sample_world ∅))).
  vm_compute. reflexivity.
Defined.

Lemma no_zero_row_no_warning (cm : list (list nat)) :
  Forall (fun row => foldr Nat.add 0%nat row <> 0%nat) cm ->
  existsb (fun c => (hd 0%nat c =? 0)%nat) (np_newaxis (np_sum_axis1 cm))
  = false.
Proof.
  induction 1 as [|row cm Hrow _ IH]; simpl; [reflexivity|].
  apply Nat.eqb_neq in Hrow. rewrite Hrow. exact IH.
Qed.

Lemma outputs_app (l1 l2 : list entry) :
  outputs (l1 ++ l2) = outputs l1 ++ outputs l2.
Proof. apply omap_app. Qed.

(** C10: the row-normalised matrix [cm_norm] is never used: when no row
    of the confusion matrix sums to zero, [make_confusion_matrix] and the
    function that omits the computation of [cm_norm] end with the same
    outcome, the same machine (so the same saved file) and the same
    output (the same figure and console output). *)
Theorem cm_norm_is_unused
    (y_true y_pred : list Z) (classes : option (list string))
    (figsize : Z * Z) (text_size : Z) (norm savefig : bool) (w : world) :
  Forall (fun row => foldr Nat.add 0%nat row <> 0%nat)
         (confusion_counts y_true y_pred) ->
  observation (make_confusion_matrix y_true y_pred classes figsize text_size
                 norm savefig w) =
  observation (make_confusion_matrix_without_cm_norm y_true y_pred classes
                 figsize text_size norm savefig w).
Proof.
  intros Hrows. apply no_zero_row_no_warning in Hrows.
  unfold observation, make_confusion_matrix,
    make_confusion_matrix_without_cm_norm.
  rewrite !bind_run. unfold confusion_matrix. rewrite !call_run.
  destruct (valid_targets y_true y_pred); cbv beta iota; cbn [status_of];
    [|reflexivity].
  rewrite (bind_run (np_divide _ _)).
  match goal with
  | |- context [np_divide ?a ?col ?w0] =>
      destruct (np_divide_run a col w0) as [cm_norm Hq]; rewrite Hq; clear Hq
  end.
  rewrite Hrows. cbv beta iota.
  rewrite !bind_run. unfold plot_confusion_matrix. rewrite !call_run.
  cbn [orb negb].
  destruct classes as [names|];
    [destruct (length names =? length (confusion_counts y_true y_pred))%nat|];
    cbv beta iota; cbn [status_of];
    repeat (rewrite !bind_run;
            unfold plt_xlabel, plt_ylabel, plt_title, plt_show;
            rewrite !emit_run; cbv beta iota);
    try destruct savefig;
    unfold fig_savefig, prim, ret; cbn [fst snd mach log fs];
    rewrite ?log_record, ?mach_record, ?outputs_app;
    change (outputs [Call (Lib "numpy.divide") Returned]) with (@nil output);
    rewrite ?app_nil_r; reflexivity.
Qed.

Lemma cm_norm_is_unused_witness :
  observation (make_confusion_matrix [0; 1; 1]%Z [0; 1; 0]%Z None
                 default_figsize default_text_size default_norm true
                 (sample_world ∅)) =
  observation (make_confusion_matrix_without_cm_norm [0; 1; 1]%Z [0; 1; 0]%Z
                 None default_figsize default_text_size default_norm true
                 (sample_world ∅)).
Proof.
  apply (cm_norm_is_unused [0; 1; 1]%Z [0; 1; 0]%Z None default_figsize
           default_text_size default_norm true (sample_world ∅)).
  vm_compute. repeat constructor; discriminate.
Defined.

(** Where a row of the confusion matrix sums to zero the two functions
    differ in their output: NumPy's warning about the division. *)
Example cm_norm_warns_on_zero_row :
  observation (make_confusion_matrix [0]%Z [1]%Z None default_figsize
                 default_text_size default_norm false (sample_world ∅)) <>
  observation (make_confusion_matrix_without_cm_norm [0]%Z [1]%Z None
                 default_figsize default_text_size default_norm false
                 (sample_world ∅)).
Proof. vm_compute. discriminate. Qed.

(** ** [pred_and_plot] *)

Lemma load_and_prep_image_eq (filename : string) (img_shape : Z)
    (normalize : bool) (w : world) :
  load_and_prep_image filename img_shape normalize w =
  match fs (mach w) !! filename with
  | None =>
      (Fault NotFoundError,
       record (Call (Lib "tf.io.read_file") (Raised NotFoundError)) w)
  | Some f =>
      let w1 := record (Call (Lib "tf.io.read_file") Returned) w in
      match decode_jpeg_result (mach w) f with
      | Fault e =>
          (Fault e, record (Call (Lib "tf.image.decode_jpeg") (Raised e)) w1)
      | Ok img =>
          let w2 := record (Call (Lib "tf.image.decode_jpeg") Returned) w1 in
          match resize_result (mach w) img (img_shape, img_shape) with
          | Fault e =>
              (Fault e, record (Call (Lib "tf.image.resize") (Raised e)) w2)
          | Ok img' =>
              (Ok (if normalize then tensor_div img' 255 else img'),
               record (Call (Lib "tf.image.resize") Returned) w2)
          end
      end
  end.
Proof.
  unfold load_and_prep_image. rewrite bind_run.
  unfold tf_io_read_file, prim.
  destruct (fs (mach w) !! filename) as [f|]; [|reflexivity].
  cbv beta iota zeta. rewrite bind_run. unfold tf_image_decode_jpeg, prim.
  cbn [mach fst snd].
  destruct (decode_jpeg_result (mach w) f) as [img|e]; [|reflexivity].
  cbv beta iota. rewrite bind_run. unfold tf_image_resize, prim.
  cbn [mach fst snd].
  destruct (resize_result (mach w) img (img_shape, img_shape)) as [img'|e];
    [|reflexivity].
  destruct normalize; reflexivity.
Qed.

Lemma load_and_prep_image_run (filename : string) (img_shape : Z)
    (normalize : bool) (w : world) (l : list entry) :
  exists evs,
    fst (load_and_prep_image filename img_shape normalize
           {| mach := mach w; log := l |})
      = fst (load_and_prep_image filename img_shape normalize w) /\
    snd (load_and_prep_image filename img_shape normalize
           {| mach := mach w; log := l |})
      = {| mach := mach w; log := l ++ evs |} /\
    Forall (fun en => exists name st,
              en = Call (Lib name) st /\ name <> "tf.round") evs.
Proof.
  rewrite !load_and_prep_image_eq. cbn [mach].
  destruct (fs (mach w) !! filename) as [f|]; cbv zeta;
    [destruct (decode_jpeg_result (mach w) f) as [img|e];
     [destruct (resize_result (mach w) img (img_shape, img_shape))
        as [img'|e]|]|];
    unfold record; cbn [fst snd mach log]; rewrite <- ?app_assoc;
    eexists; (split; [reflexivity|]); (split; [reflexivity|]);
    repeat constructor; eexists _, _; (split; [reflexivity|discriminate]).
Qed.

Lemma library_calls_no_output (evs : list entry) :
  Forall (fun en => exists name st,
            en = Call (Lib name) st /\ name <> "tf.round") evs ->
  outputs evs = [] /\ ~ In (Call (Lib "tf.round") Returned) evs.
Proof.
  induction 1 as [|en evs (name & st & -> & Hname) _ [IH1 IH2]]; simpl.
  - split; [reflexivity|tauto].
  - split; [exact IH1|]. intros [Heq|Hin]; [|exact (IH2 Hin)].
    injection Heq as Heq. exact (Hname Heq).
Qed.

Lemma pred_and_plot_single_output_run
    (m : model) (filename : string) (class_names : list string) (w : world)
    (img : tensor3) (x : Q) :
  fst (load_and_prep_image filename default_img_shape default_normalize w)
    = Ok img ->
  predict m (tf_expand_dims img) = Ok (Arr [Arr [Scalar x]]) ->
  exists evs,
    Forall (fun en => exists name st,
              en = Call (Lib name) st /\ name <> "tf.round") evs /\
    pred_and_plot m filename class_names w =
    (Fault TypeError,
     {| mach := mach w;
        log := log w ++
               (Enter F_load_and_prep_image :: evs
                ++ [Call (Lib "model.predict") Returned])
               ++ [Call (Lib "numpy.ndarray.__getitem__") Returned;
                   Call (Builtin "len") Returned;
                   Call (Lib "numpy.ndarray.__getitem__") Returned;
                   Call (Lib "numpy.ndarray.__getitem__") Returned;
                   Call (Builtin "len") (Raised TypeError)] |}).
Proof.
  intros Hload Hpred.
  destruct (load_and_prep_image_run filename default_img_shape
              default_normalize w (log w ++ [Enter F_load_and_prep_image]))
    as (evs & Hfst & Hsnd & Hevs).
  exists evs. split; [exact Hevs|].
  rewrite Hload in Hfst.
  unfold pred_and_plot. rewrite bind_run. unfold enter, record at 1.
  destruct (load_and_prep_image filename default_img_shape default_normalize
              {| mach := mach w;
                 log := log w ++ [Enter F_load_and_prep_image] |})
    as [r w1].
  cbn [fst snd] in Hfst, Hsnd. subst r w1. cbv beta iota.
  rewrite bind_run. unfold model_predict. rewrite call_run, Hpred.
  cbv beta iota. cbn [status_of].
  rewrite !bind_run. unfold np_getitem at 1. rewrite call_run.
  change (list_item [Arr [Scalar x]] 0) with (Ok (Arr [Scalar x])).
  cbv beta iota. cbn [status_of].
  rewrite bind_run. unfold py_len at 1. rewrite call_run.
  cbv beta iota. cbn [status_of length Nat.ltb Nat.leb].
  rewrite bind_run. unfold np_getitem at 1. rewrite call_run.
  change (list_item [Arr [Scalar x]] 0) with (Ok (Arr [Scalar x])).
  cbv beta iota. cbn [status_of].
  rewrite bind_run. unfold np_getitem at 1. rewrite call_run.
  change (list_item [Scalar x] 0) with (Ok (Scalar x)).
  cbv beta iota. cbn [status_of].
  rewrite bind_run. unfold py_len at 1. rewrite call_run.
  cbv beta iota. cbn [status_of].
  unfold record. cbn [log mach]. do 2 f_equal.
  rewrite <- !app_assoc. simpl. rewrite <- !app_assoc. reflexivity.
Qed.

(** C8: when the prediction has shape (1, 1), [pred_and_plot] passes the
    first test ([len(pred[0])] is 1), reaches the [elif], and faults with
    a [TypeError] raised by [len] applied to the scalar [pred[0][0]]; the
    branch that rounds the prediction is not executed and nothing is
    plotted. *)
Theorem pred_and_plot_single_output_faults
    (m : model) (filename : string) (class_names : list string) (w : world)
    (img : tensor3) (x : Q) :
  fst (load_and_prep_image filename default_img_shape default_normalize w)
    = Ok img ->
  predict m (tf_expand_dims img) = Ok (Arr [Arr [Scalar x]]) ->
  fst (pred_and_plot m filename class_names w) = Fault TypeError /\
  (exists pre,
     added (log w) (log (snd (pred_and_plot m filename class_names w))) =
       pre ++ [Call (Lib "numpy.ndarray.__getitem__") Returned;
               Call (Builtin "len") Returned;
               Call (Lib "numpy.ndarray.__getitem__") Returned;
               Call (Lib "numpy.ndarray.__getitem__") Returned;
               Call (Builtin "len") (Raised TypeError)] /\
     ~ In (Call (Lib "tf.round") Returned) pre) /\
  outputs (added (log w) (log (snd (pred_and_plot m filename class_names w))))
    = [].
Proof.
  intros Hload Hpred.
  destruct (pred_and_plot_single_output_run m filename class_names w img x
              Hload Hpred) as (evs & Hevs & Hrun).
  destruct (library_calls_no_output evs Hevs) as [Hout Hround].
  rewrite Hrun. cbn [fst snd log]. rewrite added_app.
  split; [reflexivity|]. split.
  - eexists. split; [reflexivity|].
    intros [Hin|Hin]; [discriminate Hin|].
    apply in_app_or in Hin. destruct Hin as [Hin|[Hin|[]]].
    + exact (Hround Hin).
    + discriminate Hin.
  - change (Enter F_load_and_prep_image :: evs ++ ?l)
      with ([Enter F_load_and_prep_image] ++ evs ++ l).
    rewrite !outputs_app, Hout. reflexivity.
Qed.

Lemma pred_and_plot_single_output_faults_witness :
  fst (pred_and_plot sigmoid_model "gray.jpg" ["cat"; "dog"]
         (sample_world (<["gray.jpg" := gray_jpeg]> ∅))) = Fault TypeError /\
  (exists pre,
     added (log (sample_world (<["gray.jpg" := gray_jpeg]> ∅)))
       (log (snd (pred_and_plot sigmoid_model "gray.jpg" ["cat"; "dog"]
                    (sample_world (<["gray.jpg" := gray_jpeg]> ∅))))) =
       pre ++ [Call (Lib "numpy.ndarray.__getitem__") Returned;
               Call (Builtin "len") Returned;
               Call (Lib "numpy.ndarray.__getitem__") Returned;
               Call (Lib "numpy.ndarray.__getitem__") Returned;
               Call (Builtin "len") (Raised TypeError)] /\
     ~ In (Call (Lib "tf.round") Returned) pre) /\
  outputs
    (added (log (sample_world (<["gray.jpg" := gray_jpeg]> ∅)))
       (log (snd (pred_and_plot sigmoid_model "gray.jpg" ["cat"; "dog"]
                    (sample_world (<["gray.jpg" := gray_jpeg]> ∅))))))
    = [].
Proof.
  apply (pred_and_plot_single_output_faults sigmoid_model "gray.jpg"
           ["cat"; "dog"] (sample_world (<["gray.jpg" := gray_jpeg]> ∅))
           (tensor_div
              (resize_bilinear (map (map (map inject_Z)) [[[128%Z]]]) 224 224)
              255)
           (7 # 10)).
  - reflexivity.
  - reflexivity.
Defined.

(** ** Calls between the functions of [main.py] *)

Lemma leaf_make_confusion_matrix y_true y_pred classes figsize text_size
    norm savefig :
  leaf (make_confusion_matrix y_true y_pred classes figsize text_size norm
          savefig).
Proof. unfold make_confusion_matrix. leaves. Qed.

Lemma leaf_create_tensorboard_callback dir_name experiment_name :
  leaf (create_tensorboard_callback dir_name experiment_name).
Proof. unfold create_tensorboard_callback. leaves. Qed.

Lemma leaf_plot_loss_curves h : leaf (plot_loss_curves h).
Proof. unfold plot_loss_curves. leaves. Qed.

Lemma leaf_compare_history original_history new_history initial_epochs :
  leaf (compare_history original_history new_history initial_epochs).
Proof. unfold compare_history. leaves. Qed.

Lemma leaf_unzip_data filename : leaf (unzip_data filename).
Proof. unfold unzip_data. leaves. Qed.

Lemma leaf_walk_through_dir dir_path : leaf (walk_through_dir dir_path).
Proof. unfold walk_through_dir. leaves. Qed.

Lemma leaf_calculate_results y_true y_pred :
  leaf (calculate_results y_true y_pred).
Proof. unfold calculate_results. leaves. Qed.

(** [pred_and_plot] enters [load_and_prep_image] first and calls no
    other function of [main.py]. *)
Lemma pred_and_plot_entries (m : model) (filename : string)
    (class_names : list string) (w : world) :
  exists evs,
    log (snd (pred_and_plot m filename class_names w)) =
      log w ++ Enter F_load_and_prep_image :: evs /\
    Forall (fun en => is_enter en = false) evs.
Proof.
  unfold pred_and_plot.
  match goal with
  | |- context [bind (enter ?f ?body) ?k w] =>
      change (bind (enter f body) k w)
        with (bind body k (record (Enter f) w));
      assert (leaf (bind body k)) as Hleaf
  end.
  { apply leaf_bind; [apply leaf_load_and_prep_image|intros img]. leaves. }
  destruct (Hleaf (record (Enter F_load_and_prep_image) w)) as (evs & Hl & Hevs).
  exists evs. split; [|exact Hevs].
  rewrite Hl. cbn [record log]. rewrite <- app_assoc. reflexivity.
Qed.

Lemma not_entered (g : func) (evs : list entry) :
  Forall (fun en => is_enter en = false) evs -> ~ In (Enter g) evs.
Proof.
  intros Hevs Hin. rewrite List.Forall_forall in Hevs.
  specialize (Hevs _ Hin). discriminate Hevs.
Qed.

Lemma leaf_calls_nothing {A} (m : M A) (w : world) (g : func) :
  leaf m -> ~ In (Enter g) (added (log w) (log (snd (m w)))).
Proof.
  intros Hleaf. destruct (Hleaf w) as (evs & -> & Hevs).
  rewrite added_app. apply not_entered. exact Hevs.
Qed.

(** C2, as the specification states it, fails: [pred_and_plot] calls
    [load_and_prep_image]. *)
Lemma pred_and_plot_calls_load_and_prep_image :
  ~ no_function_calls_another.
Proof.
  intros Hclaim.
  apply (Hclaim (Call_pred_and_plot sigmoid_model "gray.jpg" ["cat"; "dog"])
           (sample_world ∅) F_load_and_prep_image).
  vm_compute. left. reflexivity.
Qed.

(** C2, amended: the only call from a function of [main.py] to a
    function of [main.py] is the call of [load_and_prep_image] that
    [pred_and_plot] makes (on every run); every other function is a leaf
    that calls library and built-in operations only. *)
Theorem only_pred_and_plot_calls_load_and_prep_image
    (c : invocation) (w : world) (g : func) :
  In (Enter g) (added (log w) (log (snd (invoke c w)))) <->
  callee c = F_pred_and_plot /\ g = F_load_and_prep_image.
Proof.
  destruct c; cbn [invoke callee].
  3: {
    destruct (pred_and_plot_entries m filename class_names w)
      as (evs & -> & Hevs).
    rewrite added_app. split.
    - intros [Heq|Hin].
      + injection Heq as <-. split; reflexivity.
      + exfalso. exact (not_entered g evs Hevs Hin).
    - intros [_ ->]. left. reflexivity.
  }
  all: split; [|intros [Hc _]; discriminate Hc].
  all: intros Hin; exfalso; revert Hin; apply leaf_calls_nothing.
  - unfold void. apply leaf_bind; [apply leaf_load_and_prep_image|].
    intros a. apply leaf_ret.
  - apply leaf_make_confusion_matrix.
  - unfold void. apply leaf_bind; [apply leaf_create_tensorboard_callback|].
    intros a. apply leaf_ret.
  - apply leaf_plot_loss_curves.
  - apply leaf_compare_history.
  - apply leaf_unzip_data.
  - apply leaf_walk_through_dir.
  - unfold void. apply leaf_bind; [apply leaf_calculate_results|].
    intros a. apply leaf_ret.
Qed.

(** ** Faults *)

Lemma propagating_make_confusion_matrix y_true y_pred classes figsize
    text_size norm savefig :
  propagating (make_confusion_matrix y_true y_pred classes figsize text_size
                 norm savefig).
Proof. unfold make_confusion_matrix. propagate. Qed.

Lemma propagating_pred_and_plot m filename class_names :
  propagating (pred_and_plot m filename class_names).
Proof.
  unfold pred_and_plot. apply propagating_bind.
  - apply propagating_enter, propagating_load_and_prep_image.
  - intros img. propagate.
Qed.

Lemma propagating_create_tensorboard_callback dir_name experiment_name :
  propagating (create_tensorboard_callback dir_name experiment_name).
Proof. unfold create_tensorboard_callback. propagate. Qed.

Lemma propagating_plot_loss_curves h : propagating (plot_loss_curves h).
Proof. unfold plot_loss_curves. propagate. Qed.

Lemma propagating_compare_history original_history new_history
    initial_epochs :
  propagating (compare_history original_history new_history initial_epochs).
Proof. unfold compare_history. propagate. Qed.

Lemma propagating_unzip_data filename : propagating (unzip_data filename).
Proof. unfold unzip_data. propagate. Qed.

Lemma propagating_walk_through_dir dir_path :
  propagating (walk_through_dir dir_path).
Proof. unfold walk_through_dir. propagate. Qed.

Lemma propagating_calculate_results y_true y_pred :
  propagating (calculate_results y_true y_pred).
Proof. unfold calculate_results. propagate. Qed.

Lemma propagating_void {A} (m : M A) : propagating m -> propagating (void m).
Proof.
  intros Hm. unfold void. apply propagating_bind; [exact Hm|].
  intros a. apply propagating_ret.
Qed.

(** C3, as the specification states it, fails: the fault of a run is not
    always raised by a library call.  For the history of a training run
    without validation data, [plot_loss_curves] ends in the [KeyError]
    that the dict subscript [history.history["val_loss"]] of its own code
    raises. *)
Lemma plot_loss_curves_raises_key_error :
  ~ every_fault_is_a_library_fault.
Proof.
  intros Hclaim.
  destruct (Hclaim (Call_plot_loss_curves history_without_validation)
              (sample_world ∅) (KeyError "val_loss") eq_refl)
    as (pre & o & Hlog & _ & Hlib).
  vm_compute in Hlog.
  change [Call (Builtin "dict.__getitem__") Returned;
          Call (Builtin "dict.__getitem__") (Raised (KeyError "val_loss"))]
    with ([Call (Builtin "dict.__getitem__") Returned]
          ++ [Call (Builtin "dict.__getitem__") (Raised (KeyError "val_loss"))])
    in Hlog.
  apply app_inj_tail in Hlog. destruct Hlog as [_ Hlast].
  injection Hlast as <-. discriminate Hlib.
Qed.

(** C3, amended: no function of [main.py] catches, transforms, retries
    or recovers from an error, and none raises a fault of its own: a run
    that returns saw every operation return, and a run that ends in a
    fault ends with the operation that raised it, a library call or a
    Python built-in operation evaluated by the function's own code (a
    subscript, [len], [int]), with that very fault and nothing executed
    after it. *)
Theorem faults_propagate_unmodified (c : invocation) (w : world) :
  exists evs : list entry,
    log (snd (invoke c w)) = log w ++ evs /\
    match fst (invoke c w) with
    | Ok _ => faultless evs
    | Fault e =>
        exists pre o, evs = pre ++ [Call o (Raised e)] /\ faultless pre
    end.
Proof.
  assert (propagating (invoke c)) as Hc.
  { destruct c; cbn [invoke].
    - apply propagating_void, propagating_load_and_prep_image.
    - apply propagating_make_confusion_matrix.
    - apply propagating_pred_and_plot.
    - apply propagating_void, propagating_create_tensorboard_callback.
    - apply propagating_plot_loss_curves.
    - apply propagating_compare_history.
    - apply propagating_unzip_data.
    - apply propagating_walk_through_dir.
    - apply propagating_void, propagating_calculate_results. }
  destruct (Hc w) as (evs & Hlog & Hprop).
  exists evs. split; [exact Hlog|].
  unfold propagated in Hprop. destruct (fst (invoke c w)); exact Hprop.
Qed.

(** A fault raised by a library call: a zip archive with a damaged
    member. *)
Example unzip_data_propagates_bad_zip_file :
  fst (invoke (Call_unzip_data "data.zip")
         (sample_world
            (<["data.zip" := Zip [("a.jpg", Some gray_jpeg); ("b.jpg", None)]]> ∅)))
  = Fault BadZipFile.
Proof. reflexivity. Qed.

(** * Further results *)





(** A directory with two sub-directories and a file, one of the
    sub-directories holding two files. *)
Example walk_through_dir_prints_the_counts :
  outputs (log (snd (walk_through_dir "data" {| mach := data_machine;
                                                log := [] |})))
  = [Print "There are 2 directories and 1 images in 'data'.";
     Print "There are 0 directories and 2 images in 'data/train'.";
     Print "There are 0 directories and 0 images in 'data/test'."].
Proof. reflexivity. Qed.

(** A path that holds a NUL character is refused by [os.walk]. *)
Example walk_through_dir_refuses_a_malformed_path :
  fst (walk_through_dir nul_path {| mach := data_machine; log := [] |})
  = Fault ValueError.
Proof. reflexivity. Qed.

Lemma dict_getitem_missing {V} (d : gmap string V) (key : string) (w : world) :
  d !! key = None ->
  dict_getitem d key w =
  (Fault (KeyError key),
   record (Call (Builtin "dict.__getitem__") (Raised (KeyError key))) w).
Proof. intros H. unfold dict_getitem. rewrite call_run, H. reflexivity. Qed.

Lemma plt_plot_run_xs (xs : list Z) (ys : list Q) (label : string) (w : world) :
  length xs = length ys ->
  plt_plot (Some xs) ys label w =
  (Ok tt, record (Call (Out (Plot (Some xs) ys label)) Returned) w).
Proof.
  intros H. unfold plt_plot. rewrite call_run.
  apply Nat.eqb_eq in H. rewrite H. reflexivity.
Qed.

Lemma plt_plot_mismatch (xs : list Z) (ys : list Q) (label : string)
    (w : world) :
  length xs <> length ys ->
  plt_plot (Some xs) ys label w =
  (Fault ValueError,
   record (Call (Out (Plot (Some xs) ys label)) (Raised ValueError)) w).
Proof.
  intros H. unfold plt_plot. rewrite call_run.
  apply Nat.eqb_neq in H. rewrite H. reflexivity.
Qed.

Lemma length_range (n : nat) : length (range n) = n.
Proof. unfold range. rewrite length_map, length_seq. reflexivity. Qed.

(** Read the next metric of a history in the run [H], splitting on
    whether the history has it. *)
Ltac read_metric H Hk :=
  rewrite bind_run in H;
  match type of H with
  | context [dict_getitem ?d ?key ?w0] =>
      let E := fresh "E" in
      destruct (d !! key) eqn:E;
      [ rewrite (dict_getitem_run d key _ w0 E) in H
      | rewrite (dict_getitem_missing d key w0 E) in H ];
      cbv beta iota in H;
      try rewrite E in Hk
  end.

Ltac faulted H :=
  injection H as <- <-; cbn [fst snd];
  unfold record; cbn [log mach];
  rewrite <- ?app_assoc, ?added_app.

(** X3: when the history lacks one of "loss", "val_loss", "accuracy"
    and "val_accuracy", [plot_loss_curves] ends in the [KeyError] of the
    first one missing in that order, and nothing is plotted. *)
Theorem plot_loss_curves_missing_metric (h : History) (w : world) (k : string) :
  first_missing plot_loss_curves_keys (history h) = Some k ->
  fst (plot_loss_curves h w) = Fault (KeyError k) /\
  outputs (added (log w) (log (snd (plot_loss_curves h w)))) = [].
Proof.
  intros Hk. unfold first_missing, plot_loss_curves_keys in Hk.
  cbn [List.find] in Hk.
  destruct (plot_loss_curves h w) as [r w'] eqn:Hrun.
  unfold plot_loss_curves in Hrun.
  read_metric Hrun Hk; [|injection Hk as <-; faulted Hrun; split; reflexivity].
  read_metric Hrun Hk; [|injection Hk as <-; faulted Hrun; split; reflexivity].
  read_metric Hrun Hk; [|injection Hk as <-; faulted Hrun; split; reflexivity].
  read_metric Hrun Hk; [|injection Hk as <-; faulted Hrun; split; reflexivity].
  discriminate Hk.
Qed.

(** X6: when one of the two histories lacks one of the four metrics,
    [compare_history] ends in the [KeyError] of the first one missing (the
    original history is read first, in the order accuracy, loss,
    val_accuracy, val_loss), and nothing is plotted. *)
Theorem compare_history_missing_metric
    (original_history new_history : History) (initial_epochs : Z) (w : world)
    (k : string) :
  first_missing compare_history_keys (history original_history) = Some k \/
  (first_missing compare_history_keys (history original_history) = None /\
   first_missing compare_history_keys (history new_history) = Some k) ->
  fst (compare_history original_history new_history initial_epochs w)
    = Fault (KeyError k) /\
  outputs (added (log w)
             (log (snd (compare_history original_history new_history
                          initial_epochs w)))) = [].
Proof.
  intros Hk.
  assert (match first_missing compare_history_keys (history original_history) with
          | Some k' => k' = k
          | None => first_missing compare_history_keys (history new_history) = Some k
          end) as Hk'.
  { destruct Hk as [->|[-> Hn]]; [reflexivity|exact Hn]. }
  clear Hk. unfold first_missing, compare_history_keys in Hk'.
  cbn [List.find] in Hk'.
  destruct (compare_history original_history new_history initial_epochs w)
    as [r w'] eqn:Hrun.
  unfold compare_history in Hrun.
  read_metric Hrun Hk'; [|subst k; faulted Hrun; split; reflexivity].
  read_metric Hrun Hk'; [|subst k; faulted Hrun; split; reflexivity].
  read_metric Hrun Hk'; [|subst k; faulted Hrun; split; reflexivity].
  read_metric Hrun Hk'; [|subst k; faulted Hrun; split; reflexivity].
  read_metric Hrun Hk'; [|injection Hk' as <-; faulted Hrun; split; reflexivity].
  read_metric Hrun Hk'; [|injection Hk' as <-; faulted Hrun; split; reflexivity].
  read_metric Hrun Hk'; [|injection Hk' as <-; faulted Hrun; split; reflexivity].
  read_metric Hrun Hk'; [|injection Hk' as <-; faulted Hrun; split; reflexivity].
  discriminate Hk'.
Qed.

Ltac plot_in H :=
  rewrite bind_run in H;
  first [ rewrite plt_plot_run_xs in H by (rewrite length_range; congruence)
        | unfold plt_title, plt_xlabel, plt_legend, plt_figure in H;
          rewrite emit_run in H ];
  cbv beta iota in H.

(** X4: when the four metrics have as many epochs as the loss,
    [plot_loss_curves] returns after drawing two figures: loss and
    val_loss, then accuracy and val_accuracy, every curve against the
    epochs [range(len(loss))]. *)
Theorem plot_loss_curves_plots_against_loss_epochs
    (h : History) (w : world) (loss val_loss accuracy val_accuracy : list Q) :
  history h !! "loss" = Some loss ->
  history h !! "val_loss" = Some val_loss ->
  history h !! "accuracy" = Some accuracy ->
  history h !! "val_accuracy" = Some val_accuracy ->
  length val_loss = length loss ->
  length accuracy = length loss ->
  length val_accuracy = length loss ->
  fst (plot_loss_curves h w) = Ok tt /\
  outputs (added (log w) (log (snd (plot_loss_curves h w)))) =
    [Plot (Some (range (length loss))) loss "training_loss";
     Plot (Some (range (length loss))) val_loss "val_loss";
     Title "Loss" None;
     Xlabel "Epochs" None;
     Legend None;
     Figure None;
     Plot (Some (range (length loss))) accuracy "accuracy";
     Plot (Some (range (length loss))) val_accuracy "val_accuracy";
     Title "Accuracy" None;
     Xlabel "Epochs" None;
     Legend None].
Proof.
  intros H1 H2 H3 H4 L2 L3 L4.
  destruct (plot_loss_curves h w) as [r w'] eqn:Hrun.
  unfold plot_loss_curves in Hrun.
  do 4 (rewrite bind_run in Hrun;
        erewrite dict_getitem_run in Hrun by eassumption;
        cbv beta iota in Hrun).
  cbv zeta in Hrun.
  do 10 plot_in Hrun.
  unfold plt_legend in Hrun. rewrite emit_run in Hrun.
  faulted Hrun. split; reflexivity.
Qed.

(** X5: the epochs are taken from the loss alone: when val_loss has a
    different number of epochs, [plot_loss_curves] ends in the
    [ValueError] of the second [plt.plot], after the training loss has
    been drawn. *)
Theorem plot_loss_curves_unequal_epochs
    (h : History) (w : world) (loss val_loss accuracy val_accuracy : list Q) :
  history h !! "loss" = Some loss ->
  history h !! "val_loss" = Some val_loss ->
  history h !! "accuracy" = Some accuracy ->
  history h !! "val_accuracy" = Some val_accuracy ->
  length val_loss <> length loss ->
  fst (plot_loss_curves h w) = Fault ValueError /\
  outputs (added (log w) (log (snd (plot_loss_curves h w)))) =
    [Plot (Some (range (length loss))) loss "training_loss"].
Proof.
  intros H1 H2 H3 H4 L2.
  destruct (plot_loss_curves h w) as [r w'] eqn:Hrun.
  unfold plot_loss_curves in Hrun.
  do 4 (rewrite bind_run in Hrun;
        erewrite dict_getitem_run in Hrun by eassumption;
        cbv beta iota in Hrun).
  cbv zeta in Hrun.
  plot_in Hrun.
  rewrite bind_run in Hrun.
  rewrite plt_plot_mismatch in Hrun by (rewrite length_range; congruence).
  cbv beta iota in Hrun.
  faulted Hrun. split; reflexivity.
Qed.


(** What is not an archive on the sample machines: a missing file, a
    directory, a malformed path and an image. *)
Example unzip_data_rejects_on_sample_machines :
  fst (unzip_data "missing.zip" {| mach := data_machine; log := [] |})
    = Fault FileNotFoundError /\
  fst (unzip_data "data" {| mach := data_machine; log := [] |})
    = Fault IsADirectoryError /\
  fst (unzip_data nul_path {| mach := data_machine; log := [] |})
    = Fault ValueError /\
  fst (unzip_data "data/train/1.jpg" {| mach := data_machine; log := [] |})
    = Fault BadZipFile.
Proof. vm_compute. repeat split; reflexivity. Qed.

(** X8: [unzip_data] leaves the file system exactly as [extractall]
    left it, whether [extractall] returned or raised: what a failed
    extraction wrote is not removed, and nothing else is written. *)
Theorem unzip_data_keeps_what_extractall_wrote
    (filename : string) (w : world) (ms : list (string * option file)) :
  fs (mach w) !! filename = Some (Zip ms) ->
  fs (mach (snd (unzip_data filename w))) =
  snd (extraction (mach w) ms (fs (mach w))).
Proof.
  intros Hfile.
  destruct (unzip_data filename w) as [r w'] eqn:Hrun.
  unfold unzip_data in Hrun. rewrite bind_run in Hrun.
  unfold ZipFile, prim in Hrun. rewrite Hfile in Hrun.
  cbv beta iota zeta in Hrun. rewrite bind_run in Hrun.
  unfold zip_extractall, prim, is_open in Hrun.
  cbn [mach log handle members open_handles next_handle fs existsb
       with_handles with_files extraction] in Hrun.
  rewrite Nat.eqb_refl in Hrun. cbn [orb] in Hrun.
  destruct (extraction (mach w) ms (fs (mach w))) as [[u|e] files].
  - cbv beta iota zeta in Hrun. cbn [fst snd] in Hrun.
    unfold zip_close, prim in Hrun.
    cbv beta iota zeta in Hrun. injection Hrun as <- <-. reflexivity.
  - cbv beta iota zeta in Hrun. cbn [fst snd] in Hrun.
    injection Hrun as <- <-. reflexivity.
Qed.

(** What [tf.image.resize] makes of a square size that it refuses. *)
Lemma resize_result_bad_size (m : machine) (img : tensor3) (s : Z) :
  ((- 2 ^ 31 <= s < - 1 \/ 2 ^ 31 <= s < 2 ^ 32 - 1)%Z ->
   resize_result m img (s, s) = Fault ValueError) /\
  (s = 0%Z -> resize_result m img (s, s) = Fault InvalidArgumentError).
Proof.
  unfold resize_result. cbn [fst snd]. split.
  - intros Hs.
    assert (refused_size s = true) as ->; [|reflexivity].
    unfold refused_size. apply orb_true_iff.
    rewrite !andb_true_iff, !Z.leb_le, !Z.ltb_lt. exact Hs.
  - intros ->. reflexivity.
Qed.

(** X9: on a valid JPEG, [load_and_prep_image] refuses an [img_shape]
    from -2^31 to -2 and one from 2^31 to 2^32 - 2 (which does not fit
    the 32-bit size) with [ValueError], and an [img_shape] of zero with
    [InvalidArgumentError]: the file is read and decoded, and the resize
    raises. *)
Theorem load_and_prep_image_rejects_bad_size
    (filename : string) (raster : list (list (list Z))) (img_shape : Z)
    (normalize : bool) (w : world) :
  fs (mach w) !! filename = Some (Jpeg raster) ->
  valid_raster raster = true ->
  (- 2 ^ 31 <= img_shape < - 1 \/ img_shape = 0 \/
   2 ^ 31 <= img_shape < 2 ^ 32 - 1)%Z ->
  fst (load_and_prep_image filename img_shape normalize w) =
    Fault (if (img_shape =? 0)%Z then InvalidArgumentError else ValueError) /\
  added (log w) (log (snd (load_and_prep_image filename img_shape normalize w)))
    = [Call (Lib "tf.io.read_file") Returned;
       Call (Lib "tf.image.decode_jpeg") Returned;
       Call (Lib "tf.image.resize")
         (Raised (if (img_shape =? 0)%Z then InvalidArgumentError
                  else ValueError))].
Proof.
  intros Hfile Hvalid Hsize.
  rewrite load_and_prep_image_eq, Hfile. cbv zeta.
  unfold decode_jpeg_result. rewrite Hvalid.
  destruct (resize_result_bad_size (mach w)
              (map (map (map inject_Z)) raster) img_shape) as [Hout Hzero].
  destruct (img_shape =? 0)%Z eqn:E.
  - apply Z.eqb_eq in E. rewrite (Hzero E).
    unfold record. cbn [fst snd log mach].
    rewrite <- !app_assoc, added_app. split; reflexivity.
  - apply Z.eqb_neq in E. rewrite Hout by lia.
    unfold record. cbn [fst snd log mach].
    rewrite <- !app_assoc, added_app. split; reflexivity.
Qed.

(** X10: for an [img_shape] from 1 to 2^31 - 1, whenever
    [load_and_prep_image] returns on a JPEG file, the tensor returned
    has the shape (img_shape, img_shape, channels of the JPEG), its
    values lie in [0, 1] when [normalize] is true and in [0, 255] when it
    is false, and nothing is changed on the machine. *)
Theorem load_and_prep_image_shape_and_range
    (w : world) (filename : string) (raster : list (list (list Z)))
    (img_shape : Z) (normalize : bool) (t : tensor3) :
  fs (mach w) !! filename = Some (Jpeg raster) ->
  (0 < img_shape < 2 ^ 31)%Z ->
  fst (load_and_prep_image filename img_shape normalize w) = Ok t ->
  has_shape t (Z.to_nat img_shape) (Z.to_nat img_shape) (channels raster) /\
  values_within 0 (if normalize then 1 else 255) t /\
  mach (snd (load_and_prep_image filename img_shape normalize w)) = mach w.
Proof.
  intros Hfile Hsize Hret.
  assert (valid_raster raster = true) as Hvalid.
  { rewrite load_and_prep_image_eq, Hfile in Hret. cbv zeta in Hret.
    unfold decode_jpeg_result in Hret.
    destruct (valid_raster raster); [reflexivity|discriminate Hret]. }
  destruct (load_and_prep_image_returns w filename raster img_shape normalize
              Hfile Hvalid Hsize) as (t' & Ht' & Hshape & Hrange).
  rewrite Hret in Ht'. injection Ht' as <-.
  split; [exact Hshape|]. split; [exact Hrange|].
  destruct (load_and_prep_image_run filename img_shape normalize w (log w))
    as (evs & _ & Hsnd & _).
  destruct w as [m l]. cbn [mach log] in *. rewrite Hsnd. reflexivity.
Qed.

(** X11: on label arrays of different lengths [make_confusion_matrix]
    ends in the [ValueError] of [confusion_matrix]: nothing is plotted and
    no file is written, even with [savefig=True]. *)
Theorem make_confusion_matrix_length_mismatch
    (y_true y_pred : list Z) (classes : option (list string))
    (figsize : Z * Z) (text_size : Z) (norm savefig : bool) (w : world) :
  length y_true <> length y_pred ->
  fst (make_confusion_matrix y_true y_pred classes figsize text_size norm
         savefig w) = Fault ValueError /\
  outputs (added (log w)
             (log (snd (make_confusion_matrix y_true y_pred classes figsize
                          text_size norm savefig w)))) = [] /\
  mach (snd (make_confusion_matrix y_true y_pred classes figsize text_size
               norm savefig w)) = mach w.
Proof.
  intros Hlen.
  destruct (make_confusion_matrix y_true y_pred classes figsize text_size
              norm savefig w) as [r w'] eqn:Hrun.
  unfold make_confusion_matrix in Hrun. rewrite bind_run in Hrun.
  unfold confusion_matrix in Hrun. rewrite call_run in Hrun.
  destruct (valid_targets y_true y_pred) eqn:E.
  - apply valid_targets_true in E. tauto.
  - cbv beta iota in Hrun. injection Hrun as <- <-.
    cbn [fst snd record log mach status_of]. rewrite added_app.
    repeat split; reflexivity.
Qed.

Lemma count_where_eqb_full (y_true y_pred : list Z) :
  length y_true = length y_pred ->
  count_where Z.eqb y_true y_pred = length y_true -> y_true = y_pred.
Proof.
  revert y_pred. induction y_true as [|t ts IH]; intros [|q qs] Hlen Hc;
    simpl in *; try discriminate; [reflexivity|].
  pose proof (count_where_le_length Z.eqb ts qs) as Hle.
  destruct (t =? q)%Z eqn:E.
  - apply Z.eqb_eq in E. subst q. f_equal. apply IH; lia.
  - simpl in Hc. lia.
Qed.

Lemma ratio_one (a b : nat) :
  (0 < b)%nat -> (ratio a b * 100 == 100)%Q -> a = b.
Proof.
  intros Hb H. unfold ratio in H.
  pose proof (nat_Q_pos b Hb) as Hpos.
  assert (inject_Z (Z.of_nat a) / inject_Z (Z.of_nat b) == 1)%Q as H1.
  { set (q := (inject_Z (Z.of_nat a) / inject_Z (Z.of_nat b))%Q) in *. lra. }
  assert (~ inject_Z (Z.of_nat b) == 0)%Q as Hb0 by lra.
  assert (inject_Z (Z.of_nat a) == inject_Z (Z.of_nat b))%Q as H2.
  { apply Qeq_trans
      with (inject_Z (Z.of_nat b)
            * (inject_Z (Z.of_nat a) / inject_Z (Z.of_nat b)))%Q.
    - symmetry. apply Qmult_div_r. exact Hb0.
    - rewrite H1. ring. }
  apply (proj1 (inject_Z_injective _ _)) in H2. lia.
Qed.

(** X12: whenever [calculate_results] returns, the accuracy it reports
    is 100 if and only if the two label arrays are identical. *)
Theorem calculate_results_accuracy_100_iff_identical
    (y_true y_pred : list Z) (w : world) (d : gmap string Q) :
  fst (calculate_results y_true y_pred w) = Ok d ->
  exists a : Q,
    d !! "accuracy" = Some a /\
    ((a == 100)%Q <-> y_true = y_pred).
Proof.
  intros Hret.
  destruct (valid_targets y_true y_pred) eqn:Hvalid;
    [|rewrite (calculate_results_refused _ _ _ Hvalid) in Hret;
      discriminate].
  rewrite (calculate_results_returns _ _ _ Hvalid) in Hret.
  injection Hret as <-.
  apply valid_targets_true in Hvalid. destruct Hvalid as (Hlen & Hne & _).
  eexists. split; [apply lookup_insert_eq|].
  assert (0 < length y_true)%nat as Hpos
    by (destruct y_true; [congruence|simpl; lia]).
  split.
  - intros H. apply ratio_one in H; [|exact Hpos].
    apply count_where_eqb_full; assumption.
  - intros <-. rewrite count_where_eqb_diag, ratio_diag by exact Hpos.
    reflexivity.
Qed.

Lemma load_and_prep_image_calls (filename : string) (img_shape : Z)
    (normalize : bool) (w : world) (l : list entry) :
  exists evs,
    fst (load_and_prep_image filename img_shape normalize
           {| mach := mach w; log := l |})
      = fst (load_and_prep_image filename img_shape normalize w) /\
    snd (load_and_prep_image filename img_shape normalize
           {| mach := mach w; log := l |})
      = {| mach := mach w; log := l ++ evs |} /\
    Forall (fun en => exists name st,
              en = Call (Lib name) st /\
              In name ["tf.io.read_file"; "tf.image.decode_jpeg";
                       "tf.image.resize"]) evs.
Proof.
  rewrite !load_and_prep_image_eq. cbn [mach].
  destruct (fs (mach w) !! filename) as [f|]; cbv zeta;
    [destruct (decode_jpeg_result (mach w) f) as [img|e];
     [destruct (resize_result (mach w) img (img_shape, img_shape))
        as [img'|e]|]|];
    unfold record; cbn [fst snd mach log]; rewrite <- ?app_assoc;
    eexists; (split; [reflexivity|]); (split; [reflexivity|]);
    repeat constructor; eexists _, _; (split; [reflexivity|]);
    simpl; tauto.
Qed.

Lemma image_calls_only (evs : list entry) :
  Forall (fun en => exists name st,
            en = Call (Lib name) st /\
            In name ["tf.io.read_file"; "tf.image.decode_jpeg";
                     "tf.image.resize"]) evs ->
  outputs evs = [] /\
  forall st, ~ In (Call (Lib "model.predict") st) evs.
Proof.
  induction 1 as [|en evs (name & st & -> & Hname) _ [IH1 IH2]]; simpl.
  - split; [reflexivity|]. intros st []. 
  - split; [exact IH1|]. intros st' [Heq|Hin]; [|exact (IH2 st' Hin)].
    injection Heq as -> _. simpl in Hname.
    destruct Hname as [H|[H|[H|[]]]]; discriminate H.
Qed.

(** Run [pred_and_plot] in [Hrun] up to the end of its call of
    [load_and_prep_image], whose outcome is given by [Hload]. *)
Ltac load_image Hrun Hload evs Hevs :=
  unfold pred_and_plot in Hrun; rewrite bind_run in Hrun;
  unfold enter, record in Hrun;
  match type of Hrun with
  | context [load_and_prep_image ?f ?s ?n {| mach := mach ?w; log := ?l |}] =>
      let Hfst := fresh "Hfst" in
      let Hsnd := fresh "Hsnd" in
      let r0 := fresh "r" in
      let w0 := fresh "w" in
      destruct (load_and_prep_image_calls f s n w l)
        as (evs & Hfst & Hsnd & Hevs);
      rewrite Hload in Hfst;
      destruct (load_and_prep_image f s n {| mach := mach w; log := l |})
        as [r0 w0];
      cbn [fst snd] in Hfst, Hsnd; subst r0 w0; cbv beta iota in Hrun
  end.

(** X13: when loading the image fails, [pred_and_plot] ends in the same
    fault, the model's [predict] is never called and nothing is plotted. *)
Theorem pred_and_plot_stops_when_the_image_fails
    (m : model) (filename : string) (class_names : list string) (w : world)
    (e : exn) :
  fst (load_and_prep_image filename default_img_shape default_normalize w)
    = Fault e ->
  fst (pred_and_plot m filename class_names w) = Fault e /\
  (forall st,
     ~ In (Call (Lib "model.predict") st)
          (added (log w) (log (snd (pred_and_plot m filename class_names w))))) /\
  outputs (added (log w) (log (snd (pred_and_plot m filename class_names w))))
    = [].
Proof.
  intros Hload.
  destruct (pred_and_plot m filename class_names w) as [r w'] eqn:Hrun.
  load_image Hrun Hload evs Hevs.
  destruct (image_calls_only evs Hevs) as [Hout Hnone].
  faulted Hrun. split; [reflexivity|]. split.
  - intros st [Hin|Hin]; [discriminate Hin|exact (Hnone st Hin)].
  - rewrite outputs_app, Hout. reflexivity.
Qed.

Lemma flatten_scalars (scores : list Q) :
  flatten (Arr (map Scalar scores)) = scores.
Proof.
  simpl. induction scores as [|s scores IH]; simpl; [reflexivity|].
  f_equal. exact IH.
Qed.

Lemma flatten_row (scores : list Q) :
  flatten (Arr [Arr (map Scalar scores)]) = scores.
Proof.
  change (flatten (Arr [Arr (map Scalar scores)]))
    with (flatten (Arr (map Scalar scores)) ++ []).
  rewrite app_nil_r. apply flatten_scalars.
Qed.

Lemma argmax_from_max (P l : list Q) (best : Q) (bi : nat) :
  P !! bi = Some best ->
  Forall (fun x => (x <= best)%Q) P ->
  exists v,
    (P ++ l) !! argmax_from best bi (length P) l = Some v /\
    Forall (fun x => (x <= v)%Q) (P ++ l).
Proof.
  revert P best bi. induction l as [|x l IH]; intros P best bi Hbest Hmax.
  - exists best. rewrite app_nil_r. split; assumption.
  - cbn [argmax_from].
    replace (P ++ x :: l) with ((P ++ [x]) ++ l)
      by (rewrite <- app_assoc; reflexivity).
    replace (S (length P)) with (length (P ++ [x]))
      by (rewrite length_app; simpl; lia).
    destruct (Qle_bool x best) eqn:E.
    + apply Qle_bool_iff in E. apply IH.
      * apply lookup_app_l_Some. exact Hbest.
      * apply Forall_app. split; [exact Hmax|]. constructor; [exact E|constructor].
    + assert (best <= x)%Q as Hlt.
      { destruct (Qlt_le_dec best x) as [H|H]; [apply Qlt_le_weak; exact H|].
        apply Qle_bool_iff in H. congruence. }
      apply IH.
      * apply list_lookup_middle. reflexivity.
      * apply Forall_app. split.
        -- eapply Forall_impl; [exact Hmax|]. intros y Hy.
           apply Qle_trans with best; [exact Hy|exact Hlt].
        -- constructor; [apply Qle_refl|constructor].
Qed.

Lemma list_item_nat {A} (l : list A) (i : nat) (x : A) :
  l !! i = Some x -> list_item l (Z.of_nat i) = Ok x.
Proof.
  intros H. pose proof (lookup_lt_Some _ _ _ H) as Hlt.
  unfold list_item.
  destruct (Z.of_nat i <? 0)%Z eqn:E; [apply Z.ltb_lt in E; lia|].
  assert ((0 <=? Z.of_nat i)%Z && (Z.of_nat i <? Z.of_nat (length l))%Z = true)
    as ->.
  { apply andb_true_intro. split; [apply Z.leb_le|apply Z.ltb_lt]; lia. }
  rewrite Nat2Z.id, H. reflexivity.
Qed.

Lemma np_argmax_scores (scores : list Q) (w : world) :
  (0 < length scores)%nat ->
  exists (i : nat) (s : Q),
    scores !! i = Some s /\ Forall (fun s' => (s' <= s)%Q) scores /\
    np_argmax (Arr [Arr (map Scalar scores)]) w =
    (Ok (Z.of_nat i), record (Call (Lib "numpy.ndarray.argmax") Returned) w).
Proof.
  intros Hlen. unfold np_argmax. rewrite call_run, flatten_row.
  destruct scores as [|x l]; [simpl in Hlen; lia|].
  destruct (argmax_from_max [x] l x 0 eq_refl) as (v & Hv & Hmax).
  { constructor; [apply Qle_refl|constructor]. }
  exists (argmax_from x 0 1 l), v. split; [exact Hv|]. split; [exact Hmax|].
  reflexivity.
Qed.

(** X14: when the prediction is one row of at least two scores and there
    are at least as many class names, [pred_and_plot] returns after
    showing the image under the title "Prediction: " followed by the
    class name at the position of a highest score, with the axes off. *)
Theorem pred_and_plot_names_the_highest_score
    (m : model) (filename : string) (class_names : list string) (w : world)
    (img : tensor3) (scores : list Q) :
  fst (load_and_prep_image filename default_img_shape default_normalize w)
    = Ok img ->
  predict m (tf_expand_dims img) = Ok (Arr [Arr (map Scalar scores)]) ->
  (1 < length scores)%nat ->
  (length scores <= length class_names)%nat ->
  exists (i : nat) (s : Q) (cls : string),
    scores !! i = Some s /\
    Forall (fun s' => (s' <= s)%Q) scores /\
    class_names !! i = Some cls /\
    fst (pred_and_plot m filename class_names w) = Ok tt /\
    outputs (added (log w)
               (log (snd (pred_and_plot m filename class_names w))))
      = [Imshow img; Title ("Prediction: " +:+ cls) None; Axis false].
Proof.
  intros Hload Hpred Hmany Hnames.
  destruct (pred_and_plot m filename class_names w) as [r w'] eqn:Hrun.
  load_image Hrun Hload evs Hevs.
  destruct (image_calls_only evs Hevs) as [Hout _].
  rewrite bind_run in Hrun. unfold model_predict in Hrun.
  rewrite call_run, Hpred in Hrun. cbv beta iota in Hrun.
  rewrite !bind_run in Hrun. unfold np_getitem at 1 in Hrun.
  rewrite call_run in Hrun.
  change (list_item [Arr (map Scalar scores)] 0)
    with (Ok (A := ndarray) (Arr (map Scalar scores))) in Hrun.
  cbv beta iota in Hrun.
  rewrite bind_run in Hrun. unfold py_len at 1 in Hrun.
  rewrite call_run in Hrun. cbv beta iota in Hrun.
  rewrite length_map in Hrun.
  assert ((1 <? length scores)%nat = true) as Hgt by (apply Nat.ltb_lt; lia).
  rewrite Hgt in Hrun.
  rewrite bind_run in Hrun.
  match type of Hrun with
  | context [np_argmax _ ?w0] =>
      destruct (np_argmax_scores scores w0 ltac:(lia))
        as (i & s & Hs & Hmax & Harg)
  end.
  rewrite Harg in Hrun. cbv beta iota in Hrun.
  destruct (lookup_lt_is_Some_2 class_names i) as [cls Hcls].
  { apply lookup_lt_Some in Hs. lia. }
  unfold py_getitem in Hrun. rewrite call_run in Hrun.
  rewrite (list_item_nat class_names i cls Hcls) in Hrun.
  cbv beta iota in Hrun.
  rewrite bind_run in Hrun. unfold plt_imshow in Hrun.
  rewrite emit_run in Hrun. cbv beta iota in Hrun.
  rewrite bind_run in Hrun. unfold plt_title in Hrun.
  rewrite emit_run in Hrun. cbv beta iota in Hrun.
  unfold plt_axis in Hrun. rewrite emit_run in Hrun.
  exists i, s, cls. split; [exact Hs|]. split; [exact Hmax|].
  split; [exact Hcls|].
  faulted Hrun. split; [reflexivity|].
  change (Enter F_load_and_prep_image :: evs ++ ?l)
    with ([Enter F_load_and_prep_image] ++ evs ++ l).
  rewrite !outputs_app, Hout. reflexivity.
Qed.

(** X15: when the single element of the prediction's first row has itself
    more than one element, [pred_and_plot] takes the second branch and
    ends in a [TypeError]: it subscripts [class_names] with the method
    [pred[0].argmax] instead of its result; nothing is plotted. *)
Theorem pred_and_plot_indexes_with_a_method
    (m : model) (filename : string) (class_names : list string) (w : world)
    (img : tensor3) (items : list ndarray) :
  fst (load_and_prep_image filename default_img_shape default_normalize w)
    = Ok img ->
  predict m (tf_expand_dims img) = Ok (Arr [Arr [Arr items]]) ->
  (1 < length items)%nat ->
  fst (pred_and_plot m filename class_names w) = Fault TypeError /\
  (exists pre,
     added (log w) (log (snd (pred_and_plot m filename class_names w))) =
       pre ++ [Call (Builtin "list.__getitem__") (Raised TypeError)]) /\
  outputs (added (log w) (log (snd (pred_and_plot m filename class_names w))))
    = [].
Proof.
  intros Hload Hpred Hmany.
  destruct (pred_and_plot m filename class_names w) as [r w'] eqn:Hrun.
  load_image Hrun Hload evs Hevs.
  destruct (image_calls_only evs Hevs) as [Hout _].
  rewrite bind_run in Hrun. unfold model_predict in Hrun.
  rewrite call_run, Hpred in Hrun. cbv beta iota in Hrun.
  rewrite !bind_run in Hrun. unfold np_getitem at 1 in Hrun.
  rewrite call_run in Hrun.
  change (list_item [Arr [Arr items]] 0)
    with (Ok (A := ndarray) (Arr [Arr items])) in Hrun.
  cbv beta iota in Hrun.
  rewrite bind_run in Hrun. unfold py_len at 1 in Hrun.
  rewrite call_run in Hrun. cbv beta iota in Hrun.
  assert ((1 <? length [Arr items])%nat = false) as Hone1 by reflexivity.
  rewrite Hone1 in Hrun.
  cbv beta iota in Hrun.
  rewrite bind_run in Hrun. unfold np_getitem at 1 in Hrun.
  rewrite call_run in Hrun.
  change (list_item [Arr [Arr items]] 0)
    with (Ok (A := ndarray) (Arr [Arr items])) in Hrun.
  cbv beta iota in Hrun.
  rewrite bind_run in Hrun. unfold np_getitem at 1 in Hrun.
  rewrite call_run in Hrun.
  change (list_item [Arr items] 0) with (Ok (A := ndarray) (Arr items)) in Hrun.
  cbv beta iota in Hrun.
  rewrite bind_run in Hrun. unfold py_len at 1 in Hrun.
  rewrite call_run in Hrun. cbv beta iota in Hrun.
  assert ((1 <? length items)%nat = true) as Hgt by (apply Nat.ltb_lt; lia).
  rewrite Hgt in Hrun.
  rewrite bind_run in Hrun. unfold np_getitem at 1 in Hrun.
  rewrite call_run in Hrun.
  change (list_item [Arr [Arr items]] 0)
    with (Ok (A := ndarray) (Arr [Arr items])) in Hrun.
  cbv beta iota in Hrun.
  unfold py_getitem in Hrun. rewrite call_run in Hrun.
  cbv beta iota in Hrun.
  faulted Hrun. split; [reflexivity|]. split.
  - exists (Enter F_load_and_prep_image :: evs
            ++ [Call (Lib "model.predict") Returned;
                Call (Lib "numpy.ndarray.__getitem__") Returned;
                Call (Builtin "len") Returned;
                Call (Lib "numpy.ndarray.__getitem__") Returned;
                Call (Lib "numpy.ndarray.__getitem__") Returned;
                Call (Builtin "len") Returned;
                Call (Lib "numpy.ndarray.__getitem__") Returned]).
    simpl. rewrite <- !app_assoc. reflexivity.
  - change (Enter F_load_and_prep_image :: evs ++ ?l)
      with ([Enter F_load_and_prep_image] ++ evs ++ l).
    rewrite !outputs_app, Hout. reflexivity.
Qed.

Lemma list_item_head {A} (x : A) (l : list A) : list_item (x :: l) 0 = Ok x.
Proof.
  unfold list_item. cbn [length Z.ltb Z.compare].
  assert ((0 <=? 0)%Z && (0 <? Z.of_nat (S (length l)))%Z = true) as ->
    by (apply andb_true_intro; split; [reflexivity|apply Z.ltb_lt; lia]).
  reflexivity.
Qed.

Lemma list_item_nil {A} (i : Z) : list_item (@nil A) i = Fault IndexError.
Proof.
  unfold list_item. cbn [length].
  destruct (i <? 0)%Z eqn:E.
  - apply Z.ltb_lt in E.
    destruct ((0 <=? i + Z.of_nat 0)%Z) eqn:E1; [|reflexivity].
    apply Z.leb_le in E1. lia.
  - destruct ((0 <=? i)%Z && (i <? Z.of_nat 0)%Z) eqn:E1; [|reflexivity].
    apply andb_true_iff in E1. destruct E1 as [_ E1].
    apply Z.ltb_lt in E1. apply Z.ltb_ge in E. simpl in E1. lia.
Qed.

(** X16: [pred_and_plot] returns only through its first branch:
    whenever it returns, the image was loaded and the first row of the
    prediction holds more than one score.  The [elif] branch and the
    rounding ([else]) branch always end in a fault: [len] of a scalar,
    a subscript that is a method, or [int] of an array. *)
Theorem pred_and_plot_returns_only_in_the_first_branch
    (m : model) (filename : string) (class_names : list string) (w : world) :
  fst (pred_and_plot m filename class_names w) = Ok tt ->
  exists (img : tensor3) (row rest : list ndarray),
    fst (load_and_prep_image filename default_img_shape default_normalize w)
      = Ok img /\
    predict m (tf_expand_dims img) = Ok (Arr (Arr row :: rest)) /\
    (1 < length row)%nat.
Proof.
  intros Hret.
  destruct (pred_and_plot m filename class_names w) as [r w'] eqn:Hrun.
  cbn [fst] in Hret. subst r.
  destruct (fst (load_and_prep_image filename default_img_shape
                   default_normalize w)) as [img|e] eqn:Hload;
    load_image Hrun Hload evs Hevs; [|discriminate Hrun].
  clear Hevs.
  rewrite bind_run in Hrun. unfold model_predict in Hrun.
  rewrite call_run in Hrun.
  destruct (predict m (tf_expand_dims img)) as [pred|e] eqn:Hpred;
    cbv beta iota in Hrun; [|discriminate Hrun].
  exists img.
  rewrite !bind_run in Hrun. unfold np_getitem at 1 in Hrun.
  rewrite call_run in Hrun.
  destruct pred as [x|[|row0 rest]];
    [cbv beta iota in Hrun; discriminate Hrun
    |rewrite list_item_nil in Hrun; cbv beta iota in Hrun; discriminate Hrun
    |].
  rewrite list_item_head in Hrun. cbv beta iota in Hrun.
  rewrite bind_run in Hrun. unfold py_len at 1 in Hrun.
  rewrite call_run in Hrun.
  destruct row0 as [x|row]; cbv beta iota in Hrun; [discriminate Hrun|].
  exists row, rest. split; [reflexivity|]. split; [exact Hpred|].
  destruct (1 <? length row)%nat eqn:Hn; [apply Nat.ltb_lt; exact Hn|].
  exfalso. clear Hpred Hn.
  set (w0 := record _ _) in Hrun.
  rewrite bind_run in Hrun. unfold np_getitem at 1 in Hrun.
  rewrite call_run, list_item_head in Hrun. cbv beta iota in Hrun.
  rewrite bind_run in Hrun. unfold np_getitem at 1 in Hrun.
  rewrite call_run in Hrun.
  destruct row as [|first row'];
    [rewrite list_item_nil in Hrun; cbv beta iota in Hrun; discriminate Hrun|].
  rewrite list_item_head in Hrun. cbv beta iota in Hrun.
  rewrite bind_run in Hrun. unfold py_len at 1 in Hrun.
  rewrite call_run in Hrun.
  destruct first as [x|items]; cbv beta iota in Hrun; [discriminate Hrun|].
  destruct (1 <? length items)%nat.
  - rewrite bind_run in Hrun. unfold np_getitem at 1 in Hrun.
    rewrite call_run, list_item_head in Hrun. cbv beta iota in Hrun.
    unfold py_getitem in Hrun. rewrite call_run in Hrun.
    cbv beta iota in Hrun. discriminate Hrun.
  - rewrite bind_run in Hrun. unfold tf_round in Hrun.
    rewrite call_run in Hrun. cbv beta iota in Hrun.
    cbn [nd_map map] in Hrun.
    rewrite bind_run in Hrun. unfold tensor_getitem at 1 in Hrun.
    rewrite call_run, list_item_head in Hrun. cbv beta iota in Hrun.
    rewrite bind_run in Hrun. unfold tensor_getitem at 1 in Hrun.
    rewrite call_run, list_item_head in Hrun. cbv beta iota in Hrun.
    rewrite bind_run in Hrun. unfold py_int in Hrun.
    rewrite call_run in Hrun. cbv beta iota in Hrun. discriminate Hrun.
Qed.

(** ** What the functions leave alone *)

Lemma preserving_ret {A} (a : A) : preserving (ret a).
Proof. intros w. reflexivity. Qed.

Lemma preserving_prim {A} (o : op) (f : world -> outcome A * machine) :
  (forall w, snd (f w) = mach w) -> preserving (prim o f).
Proof.
  intros Hf w. unfold prim. specialize (Hf w).
  destruct (f w) as [r m']. exact Hf.
Qed.

Lemma preserving_bind {A B} (m : M A) (k : A -> M B) :
  preserving m -> (forall a, preserving (k a)) -> preserving (bind m k).
Proof.
  intros Hm Hk w. unfold bind. specialize (Hm w).
  destruct (m w) as [[a|e] w1]; cbn [snd] in *.
  - rewrite (Hk a w1). exact Hm.
  - exact Hm.
Qed.

Lemma preserving_for_each {A} (l : list A) (body : A -> M unit) :
  (forall x, preserving (body x)) -> preserving (for_each l body).
Proof.
  intros Hb. induction l as [|x l IH]; simpl.
  - apply preserving_ret.
  - apply preserving_bind; [apply Hb|intros _; exact IH].
Qed.

Lemma preserving_enter {A} (f : func) (m : M A) :
  preserving m -> preserving (enter f m).
Proof. intros Hm w. unfold enter. rewrite Hm. reflexivity. Qed.

(** Decompose a computation into primitives that only read the machine. *)
Ltac readers :=
  walk (@preserving_bind) (@preserving_ret) (@preserving_prim)
       (@preserving_for_each);
  try (intros w0; cbn [snd mach];
       repeat match goal with
              | |- context [match ?x with _ => _ end] => destruct x
              end;
       reflexivity).

Lemma preserving_load_and_prep_image filename img_shape normalize :
  preserving (load_and_prep_image filename img_shape normalize).
Proof. unfold load_and_prep_image. readers. Qed.

(** X17: apart from [unzip_data] and from [make_confusion_matrix] with
    [savefig=True], no function changes the machine: the file system and
    the open handles after the call are those before it, whatever the
    outcome. *)
Theorem only_unzip_and_savefig_change_the_machine
    (c : invocation) (w : world) :
  may_write c = false ->
  mach (snd (invoke c w)) = mach w.
Proof.
  intros Hc. revert w. change (preserving (invoke c)).
  destruct c; cbn [may_write] in Hc; try discriminate Hc; cbn [invoke].
  - unfold void.
    apply preserving_bind; [apply preserving_load_and_prep_image|].
    intros a. apply preserving_ret.
  - subst savefig. unfold make_confusion_matrix. readers.
  - unfold pred_and_plot. apply preserving_bind.
    + apply preserving_enter, preserving_load_and_prep_image.
    + intros img. readers.
  - unfold void, create_tensorboard_callback. readers.
  - unfold plot_loss_curves. readers.
  - unfold compare_history. readers.
  - unfold walk_through_dir. readers.
  - unfold void, calculate_results. readers.
Qed.

(** ** The further results on sample data *)

Lemma plot_loss_curves_missing_metric_witness :
  fst (plot_loss_curves history_without_validation (sample_world ∅))
    = Fault (KeyError "val_loss") /\
  outputs (added (log (sample_world ∅))
             (log (snd (plot_loss_curves history_without_validation
                          (sample_world ∅))))) = [].
Proof.
  apply (plot_loss_curves_missing_metric history_without_validation
           (sample_world ∅) "val_loss").
  vm_compute. reflexivity.
Defined.

Lemma plot_loss_curves_plots_against_loss_epochs_witness :
  fst (plot_loss_curves first_training (sample_world ∅)) = Ok tt /\
  outputs (added (log (sample_world ∅))
             (log (snd (plot_loss_curves first_training (sample_world ∅))))) =
    [Plot (Some (range 3)) (epochs3 (9 # 10) (7 # 10) (6 # 10)) "training_loss";
     Plot (Some (range 3)) (epochs3 1 (8 # 10) (7 # 10)) "val_loss";
     Title "Loss" None;
     Xlabel "Epochs" None;
     Legend None;
     Figure None;
     Plot (Some (range 3)) (epochs3 (5 # 10) (6 # 10) (7 # 10)) "accuracy";
     Plot (Some (range 3)) (epochs3 (4 # 10) (5 # 10) (6 # 10)) "val_accuracy";
     Title "Accuracy" None;
     Xlabel "Epochs" None;
     Legend None].
Proof.
  apply (plot_loss_curves_plots_against_loss_epochs first_training
           (sample_world ∅) (epochs3 (9 # 10) (7 # 10) (6 # 10))
           (epochs3 1 (8 # 10) (7 # 10)) (epochs3 (5 # 10) (6 # 10) (7 # 10))
           (epochs3 (4 # 10) (5 # 10) (6 # 10)));
    vm_compute; reflexivity.
Defined.

Lemma plot_loss_curves_unequal_epochs_witness :
  fst (plot_loss_curves history_with_unequal_epochs (sample_world ∅))
    = Fault ValueError /\
  outputs (added (log (sample_world ∅))
             (log (snd (plot_loss_curves history_with_unequal_epochs
                          (sample_world ∅))))) =
    [Plot (Some (range 2)) (epochs2 (9 # 10) (7 # 10)) "training_loss"].
Proof.
  apply (plot_loss_curves_unequal_epochs history_with_unequal_epochs
           (sample_world ∅) (epochs2 (9 # 10) (7 # 10))
           (epochs3 1 (8 # 10) (7 # 10)) (epochs2 (5 # 10) (6 # 10))
           (epochs2 (4 # 10) (5 # 10)));
    try (vm_compute; reflexivity).
  vm_compute. discriminate.
Defined.

Lemma compare_history_missing_metric_witness :
  fst (compare_history first_training history_without_validation
         default_initial_epochs (sample_world ∅))
    = Fault (KeyError "val_accuracy") /\
  outputs (added (log (sample_world ∅))
             (log (snd (compare_history first_training
                          history_without_validation default_initial_epochs
                          (sample_world ∅))))) = [].
Proof.
  apply (compare_history_missing_metric first_training
           history_without_validation default_initial_epochs (sample_world ∅)
           "val_accuracy").
  right. split; vm_compute; reflexivity.
Defined.

Lemma unzip_data_keeps_what_extractall_wrote_witness :
  fs (mach (snd (unzip_data "data.zip"
                   (sample_world (<["data.zip" := damaged_archive]> ∅)))))
  = <["b.jpg" := Blob EmptyString]>
      (<["a.jpg" := gray_jpeg]> (<["data.zip" := damaged_archive]> ∅)).
Proof.
  exact (unzip_data_keeps_what_extractall_wrote "data.zip"
           (sample_world (<["data.zip" := damaged_archive]> ∅))
           [("a.jpg", Some gray_jpeg); ("b.jpg", None)]
           (lookup_insert_eq _ _ _)).
Defined.

Lemma load_and_prep_image_rejects_bad_size_witness :
  fst (load_and_prep_image "photo.jpg" (-224) true
         (sample_world (<["photo.jpg" := colour_jpeg]> ∅)))
    = Fault ValueError /\
  added (log (sample_world (<["photo.jpg" := colour_jpeg]> ∅)))
    (log (snd (load_and_prep_image "photo.jpg" (-224) true
                 (sample_world (<["photo.jpg" := colour_jpeg]> ∅)))))
    = [Call (Lib "tf.io.read_file") Returned;
       Call (Lib "tf.image.decode_jpeg") Returned;
       Call (Lib "tf.image.resize") (Raised ValueError)].
Proof.
  apply (load_and_prep_image_rejects_bad_size "photo.jpg"
           [[[0; 0; 0]; [255; 255; 255]]; [[10; 20; 30]; [40; 50; 60]]]%Z
           (-224) true (sample_world (<["photo.jpg" := colour_jpeg]> ∅))).
  - apply lookup_insert_eq.
  - reflexivity.
  - left. lia.
Defined.

Lemma load_and_prep_image_shape_and_range_witness :
  has_shape
    (resize_bilinear
       (map (map (map inject_Z))
          [[[0; 0; 0]; [255; 255; 255]]; [[10; 20; 30]; [40; 50; 60]]]%Z)
       32 32)
    32 32 3 /\
  values_within 0 255
    (resize_bilinear
       (map (map (map inject_Z))
          [[[0; 0; 0]; [255; 255; 255]]; [[10; 20; 30]; [40; 50; 60]]]%Z)
       32 32) /\
  mach (snd (load_and_prep_image "photo.jpg" 32 false
               (sample_world (<["photo.jpg" := colour_jpeg]> ∅))))
  = mach (sample_world (<["photo.jpg" := colour_jpeg]> ∅)).
Proof.
  apply (load_and_prep_image_shape_and_range
           (sample_world (<["photo.jpg" := colour_jpeg]> ∅)) "photo.jpg"
           [[[0; 0; 0]; [255; 255; 255]]; [[10; 20; 30]; [40; 50; 60]]]%Z
           32 false).
  - apply lookup_insert_eq.
  - lia.
  - reflexivity.
Defined.

Lemma make_confusion_matrix_length_mismatch_witness :
  fst (make_confusion_matrix [0; 1]%Z [0]%Z None default_figsize
         default_text_size default_norm true (sample_world ∅))
    = Fault ValueError /\
  outputs (added (log (sample_world ∅))
             (log (snd (make_confusion_matrix [0; 1]%Z [0]%Z None
                          default_figsize default_text_size default_norm true
                          (sample_world ∅))))) = [] /\
  mach (snd (make_confusion_matrix [0; 1]%Z [0]%Z None default_figsize
               default_text_size default_norm true (sample_world ∅)))
  = mach (sample_world ∅).
Proof.
  apply (make_confusion_matrix_length_mismatch [0; 1]%Z [0]%Z None
           default_figsize default_text_size default_norm true
           (sample_world ∅)).
  simpl. lia.
Defined.

Lemma calculate_results_accuracy_100_iff_identical_witness :
  exists a : Q,
    sample_results [1; 2; 2; 3]%Z [1; 2; 3; 3]%Z !! "accuracy" = Some a /\
    ((a == 100)%Q <-> [1; 2; 2; 3]%Z = [1; 2; 3; 3]%Z).
Proof.
  apply (calculate_results_accuracy_100_iff_identical [1; 2; 2; 3]%Z
           [1; 2; 3; 3]%Z (sample_world ∅)).
  reflexivity.
Defined.

Lemma pred_and_plot_stops_when_the_image_fails_witness :
  fst (pred_and_plot softmax_model "missing.jpg" ["cat"; "dog"; "cow"]
         (sample_world ∅)) = Fault NotFoundError /\
  (forall st,
     ~ In (Call (Lib "model.predict") st)
          (added (log (sample_world ∅))
             (log (snd (pred_and_plot softmax_model "missing.jpg"
                          ["cat"; "dog"; "cow"] (sample_world ∅)))))) /\
  outputs (added (log (sample_world ∅))
             (log (snd (pred_and_plot softmax_model "missing.jpg"
                          ["cat"; "dog"; "cow"] (sample_world ∅))))) = [].
Proof.
  apply (pred_and_plot_stops_when_the_image_fails softmax_model "missing.jpg"
           ["cat"; "dog"; "cow"] (sample_world ∅) NotFoundError).
  reflexivity.
Defined.

Lemma pred_and_plot_names_the_highest_score_witness :
  exists (i : nat) (s : Q) (cls : string),
    [(1 # 10)%Q; (7 # 10)%Q; (2 # 10)%Q] !! i = Some s /\
    Forall (fun s' => (s' <= s)%Q) [(1 # 10)%Q; (7 # 10)%Q; (2 # 10)%Q] /\
    ["cat"; "dog"; "cow"] !! i = Some cls /\
    fst (pred_and_plot softmax_model "gray.jpg" ["cat"; "dog"; "cow"]
           (sample_world (<["gray.jpg" := gray_jpeg]> ∅))) = Ok tt /\
    outputs (added (log (sample_world (<["gray.jpg" := gray_jpeg]> ∅)))
               (log (snd (pred_and_plot softmax_model "gray.jpg"
                            ["cat"; "dog"; "cow"]
                            (sample_world (<["gray.jpg" := gray_jpeg]> ∅))))))
      = [Imshow gray_image; Title ("Prediction: " +:+ cls) None; Axis false].
Proof.
  apply (pred_and_plot_names_the_highest_score softmax_model "gray.jpg"
           ["cat"; "dog"; "cow"]
           (sample_world (<["gray.jpg" := gray_jpeg]> ∅)) gray_image
           [(1 # 10)%Q; (7 # 10)%Q; (2 # 10)%Q]).
  - reflexivity.
  - reflexivity.
  - simpl. lia.
  - simpl. lia.
Defined.

Lemma pred_and_plot_indexes_with_a_method_witness :
  fst (pred_and_plot nested_pair_model "gray.jpg" ["cat"; "dog"]
         (sample_world (<["gray.jpg" := gray_jpeg]> ∅))) = Fault TypeError /\
  (exists pre,
     added (log (sample_world (<["gray.jpg" := gray_jpeg]> ∅)))
       (log (snd (pred_and_plot nested_pair_model "gray.jpg" ["cat"; "dog"]
                    (sample_world (<["gray.jpg" := gray_jpeg]> ∅))))) =
       pre ++ [Call (Builtin "list.__getitem__") (Raised TypeError)]) /\
  outputs (added (log (sample_world (<["gray.jpg" := gray_jpeg]> ∅)))
             (log (snd (pred_and_plot nested_pair_model "gray.jpg"
                          ["cat"; "dog"]
                          (sample_world (<["gray.jpg" := gray_jpeg]> ∅))))))
    = [].
Proof.
  apply (pred_and_plot_indexes_with_a_method nested_pair_model "gray.jpg"
           ["cat"; "dog"] (sample_world (<["gray.jpg" := gray_jpeg]> ∅))
           gray_image [Scalar (3 # 10); Scalar (7 # 10)]).
  - reflexivity.
  - reflexivity.
  - simpl. lia.
Defined.

Lemma pred_and_plot_returns_only_in_the_first_branch_witness :
  exists (img : tensor3) (row rest : list ndarray),
    fst (load_and_prep_image "gray.jpg" default_img_shape default_normalize
           (sample_world (<["gray.jpg" := gray_jpeg]> ∅))) = Ok img /\
    predict softmax_model (tf_expand_dims img) = Ok (Arr (Arr row :: rest)) /\
    (1 < length row)%nat.
Proof.
  apply (pred_and_plot_returns_only_in_the_first_branch softmax_model
           "gray.jpg" ["cat"; "dog"; "cow"]
           (sample_world (<["gray.jpg" := gray_jpeg]> ∅))).
  reflexivity.
Defined.

(** A prediction of shape (1, 1, 1) reaches the rounding branch, which
    ends in the [TypeError] of [int]. *)
Example pred_and_plot_rounding_branch_faults :
  fst (pred_and_plot nested_single_model "gray.jpg" ["cat"; "dog"]
         (sample_world (<["gray.jpg" := gray_jpeg]> ∅))) = Fault TypeError /\
  last (log (snd (pred_and_plot nested_single_model "gray.jpg" ["cat"; "dog"]
                    (sample_world (<["gray.jpg" := gray_jpeg]> ∅)))))
    = Some (Call (Builtin "int") (Raised TypeError)).
Proof. split; reflexivity. Qed.

Lemma only_unzip_and_savefig_change_the_machine_witness :
  mach (snd (invoke (Call_plot_loss_curves history_without_validation)
               (sample_world ∅)))
  = mach (sample_world ∅).
Proof.
  apply (only_unzip_and_savefig_change_the_machine
           (Call_plot_loss_curves history_without_validation)
           (sample_world ∅)).
  reflexivity.
Defined.
